(** * Product-mix dashboard: a model of [dashboard.js]

    The dashboard is one closure over four mutable variables ([rows],
    [seriesKeys], [selected], [currency]) and the page's controls.  The
    model below keeps that shape: a [State] record holds the closure
    variables together with the part of the DOM the script reads and
    writes, and every function of the script becomes a state transformer
    with the same name.  The asynchronous [loadSales] is split at its only
    suspension point, the [await] of the network reply. *)

From Stdlib Require Import List PrimFloat Sorted Permutation.
From Stdlib Require String Ascii.
From stdpp Require Import gmap strings list sets.

Local Set Warnings "-register-all,-clear-no-such-hyp".

(** ** JavaScript values *)

(** The values a parsed JSON reply can hold, plus the two things a property
    read can give besides: [undefined], and a member inherited from
    [Object.prototype] (a built-in function, or the prototype object itself
    for [__proto__]), named by the member.  Numbers are IEEE binary64.
    Strings are given by the bytes of their UTF-8 form throughout (strings
    with an unpaired surrogate, which have no such form, are not covered). *)
Inductive Value : Type :=
| VUndefined
| VNull
| VBool (b : bool)
| VNum (x : float)
| VStr (s : string)
| VArr (items : list Value)
| VObj (members : list (string * Value))
| VNative (member : string).

(** ToBoolean: [undefined], [null], [false], [0], [-0], [NaN] and the empty
    string are falsy; every other value, functions and objects included, is
    truthy. *)
Definition truthy (v : Value) : bool :=
  match v with
  | VUndefined | VNull => false
  | VBool b => b
  | VNum x => negb (is_zero x || is_nan x)
  | VStr s => negb (String.eqb s "")
  | VArr _ | VObj _ | VNative _ => true
  end.

(** [a || b] *)
Definition js_or (a b : Value) : Value := if truthy a then a else b.

(** A row of the reply is a JSON object: a map from its own field names to
    their values, whose prototype is [Object.prototype]. *)
Abbreviation Row := (gmap string Value).

(** The property names of [Object.prototype]. *)
Definition objectProtoMembers : list string :=
  ["constructor"; "hasOwnProperty"; "isPrototypeOf"; "propertyIsEnumerable";
   "toLocaleString"; "toString"; "valueOf"; "__proto__";
   "__defineGetter__"; "__defineSetter__"; "__lookupGetter__"; "__lookupSetter__"].

(** [r[k]]: the row's own field when it has one, otherwise what the
    prototype chain gives, which is [undefined] unless [k] names a member
    of [Object.prototype]. *)
Definition prop (r : Row) (k : string) : Value :=
  match r !! k with
  | Some v => v
  | None => if bool_decide (k ∈ objectProtoMembers) then VNative k else VUndefined
  end.

(** [Object.keys(r)]; the enumeration order is immaterial below because the
    only consumer sorts. *)
Definition objectKeys (r : Row) : list string := (map_to_list r).*1.

(** ** Ordering of strings

    [Array.prototype.sort] without a comparator orders strings by their
    sequence of UTF-16 code units.  On the UTF-8 bytes of two strings that
    is the order of the first byte in which they differ, except that a
    character outside the Basic Multilingual Plane (lead byte [F0] and up,
    a surrogate pair [D800..DFFF] in UTF-16) comes before a character of
    [U+E000..U+FFFF] (lead byte [EE] or [EF]).  [unitRank] moves the lead
    bytes accordingly and leaves every other byte in place. *)

Definition unitRank (c : Ascii.ascii) : N :=
  let n := Ascii.N_of_ascii c in
  if (n <? 238)%N then n else if (n <? 240)%N then (n + 16)%N else (n - 2)%N.

Fixpoint jsCompare (s1 s2 : string) : comparison :=
  match s1, s2 with
  | EmptyString, EmptyString => Eq
  | EmptyString, String _ _ => Lt
  | String _ _, EmptyString => Gt
  | String c1 s1', String c2 s2' =>
      match N.compare (unitRank c1) (unitRank c2) with
      | Eq => jsCompare s1' s2'
      | ne => ne
      end
  end.

Definition jsLeb (a b : string) : bool :=
  match jsCompare a b with Gt => false | _ => true end.

Definition str_lt (a b : string) : Prop := jsCompare a b = Lt.
Definition str_le (a b : string) : Prop := jsLeb a b = true.

(** Insertion into an ascending list, and the sort built from it.  On the
    duplicate-free arrays the script sorts, every sorting algorithm returns
    this same list ([sortStrings_unique]). *)
Fixpoint insertSorted (k : string) (l : list string) : list string :=
  match l with
  | [] => [k]
  | x :: l' => if jsLeb k x then k :: l else x :: insertSorted k l'
  end.

Definition sortStrings (l : list string) : list string :=
  foldr insertSorted [] l.

(** ** Deriving the series keys (lines 104-110 of [loadSales]) *)

(** The test guarding [setKeys.add(k)]. *)
Definition isSeriesField (k : string) : bool :=
  negb (String.eqb k "date") && negb (String.eqb k "total")
  && negb (String.eqb k "orders_total") && negb (String.eqb k "units_total")
  && negb (String.eqb k "sales_total").

(** The inner [Object.keys(r).forEach] on one row. *)
Definition addRowKeys (setKeys : gset string) (r : Row) : gset string :=
  foldl (fun s k => if isSeriesField k then s ∪ {[ k ]} else s)
        setKeys (objectKeys r).

(** [const setKeys = new Set(); rows.forEach(...)] *)
Definition collectKeys (rows : list Row) : gset string :=
  foldl addRowKeys ∅ rows.

(** [Array.from(setKeys).sort()] *)
Definition deriveSeriesKeys (rows : list Row) : list string :=
  sortStrings (elements (collectKeys rows)).

(** The four aggregate names the specification calls reserved. *)
Definition reservedNames : list string :=
  ["total"; "orders_total"; "units_total"; "sales_total"].

(** ** Chart descriptions *)

Inductive TraceType : Type := TBar | TScatter.

(** One entry of the [traces] array handed to [Plotly.newPlot].  Fields a
    trace literal leaves out are [None]. *)
Record Trace : Type := mkTrace {
  t_x : list Value;
  t_y : list Value;
  t_type : TraceType;
  t_mode : option string;
  t_name : string;
  t_hovertemplate : option string;
  t_yaxis : option string
}.

Record Axis2 : Type := mkAxis2 {
  a_title : string;
  a_overlaying : string;
  a_side : string;
  a_showgrid : bool
}.

Record Layout : Type := mkLayout {
  l_title : string;
  l_barmode : string;
  l_xaxis_title : string;
  l_xaxis_type : string;
  l_yaxis_title : string;
  l_yaxis2 : Axis2;
  l_margin : nat * nat * nat * nat
}.

Record Plot : Type := mkPlot {
  p_traces : list Trace;
  p_layout : Layout
}.

(** [rows.map(r=>r[k]||0)] *)
Definition seriesValues (rows : list Row) (k : string) : list Value :=
  map (fun r => js_or (prop r k) (VNum 0)) rows.

(** The template literal [`%{x}<br>${k}: %{y}<extra></extra>`]. *)
Definition hoverTemplate (k : string) : string :=
  "%{x}<br>" +:+ k +:+ ": %{y}<extra></extra>".

(** The trace pushed for key [k] in the [bar] branch (line 71). *)
Definition barTrace (dates : list Value) (rows : list Row) (k : string) : Trace :=
  {| t_x := dates; t_y := seriesValues rows k; t_type := TBar; t_mode := None;
     t_name := k; t_hovertemplate := Some (hoverTemplate k); t_yaxis := None |}.

(** The trace pushed for key [k] in the other branch (lines 75-76). *)
Definition lineTrace (dates : list Value) (rows : list Row) (k : string) : Trace :=
  {| t_x := dates; t_y := seriesValues rows k; t_type := TScatter;
     t_mode := Some "lines+markers"; t_name := k;
     t_hovertemplate := Some (hoverTemplate k); t_yaxis := None |}.

(** The trace pushed when the show-orders box is checked (line 81). *)
Definition ordersTrace (dates : list Value) (rows : list Row) : Trace :=
  {| t_x := dates; t_y := seriesValues rows "orders_total"; t_type := TScatter;
     t_mode := Some "lines+markers"; t_name := "Orders";
     t_hovertemplate := None; t_yaxis := Some "y2" |}.

(** The [layout] literal (lines 84-91). *)
Definition layoutOf (metric : string) (currency : option string) : Layout :=
  {| l_title := "Daily Product Mix ("
                +:+ (if String.eqb metric "sales" then "Sales $" else "Units") +:+ ")";
     l_barmode := "stack";
     l_xaxis_title := "Date";
     l_xaxis_type := "category";
     l_yaxis_title := if String.eqb metric "sales"
                      then "Sales (" +:+ default "USD" currency +:+ ")"
                      else "Units";
     l_yaxis2 := {| a_title := "Orders"; a_overlaying := "y"; a_side := "right";
                    a_showgrid := false |};
     l_margin := (40, 60, 60, 60) |}.

(** Lines 63-92 of [render], as a function of the variables they read:
    everything [render] does after [refreshSelected] has run. *)
Definition renderPlot (rows : list Row) (seriesKeys : list string)
    (selected : gset string) (metric chart : string) (showOrders : bool)
    (currency : option string) : Plot :=
  let dates := map (fun r => prop r "date") rows in
  let keys := filter (fun k => k ∈ selected) seriesKeys in
  let traces :=
    if String.eqb chart "bar"
    then map (barTrace dates rows) keys
    else map (lineTrace dates rows) keys in
  let traces :=
    if showOrders then traces ++ [ordersTrace dates rows] else traces in
  {| p_traces := traces; p_layout := layoutOf metric currency |}.

(** Reading a chart description back: the traces bound to the secondary
    axis [y2], and the others. *)
Definition onSecondaryAxis (t : Trace) : bool :=
  match t_yaxis t with
  | Some a => String.eqb a "y2"
  | None => false
  end.

Definition productTraces (p : Plot) : list Trace :=
  List.filter (fun t => negb (onSecondaryAxis t)) (p_traces p).

Definition ordersTraces (p : Plot) : list Trace :=
  List.filter onSecondaryAxis (p_traces p).

(** ** The page *)

(** A checkbox of [#typeChips]: its position (the [pt_i] id), its
    [dataset.key] and whether it is checked. *)
Record Chip : Type := mkChip {
  chip_index : nat;
  chip_key : string;
  chip_checked : bool
}.

Inductive LoadError : Type :=
| HttpError (status : nat) (body : string)   (* [!r.ok]: thrown by [jget] *)
| TransportError (cause : string)            (* [fetch] rejected *)
| BodyError (cause : string).                (* [r.json()] rejected *)

(** The texts [setStatus] is called with. *)
Inductive StatusMsg : Type :=
| MsgMarkup                                    (* what the page markup shows *)
| MsgLoading
| MsgLoaded (days series : nat) (tz : string)
| MsgLoadFailed (e : LoadError)
| MsgAddShop.

(** The query of one [fetch]: the five parameters of [/api/sales]. *)
Record Request : Type := mkRequest {
  q_shop : string;
  q_start_date : string;
  q_end_date : string;
  q_group_by : string;
  q_metric : string
}.

(** The parsed body of a successful reply; every member may be absent.
    [res_rows] stands for a [rows] member that is an array of objects
    ([None] for a missing or falsy one).  A successful reply whose [rows]
    is anything else makes [loadSales] throw after line 102 has assigned
    it; such replies are not among the outcomes below. *)
Record Response : Type := mkResponse {
  res_rows : option (list Row);
  res_currency : option string;
  res_tz : option string
}.

(** How the awaited [jget(url)] ends. *)
Inductive Outcome : Type :=
| Failed (e : LoadError)
| Replied (res : Response).

(** The closure variables of the script and the part of the document it
    reads and writes.  [btnKeys] is the [keys] array captured by the
    [onclick] handlers of the All/None buttons ([None] before the first
    [buildTypeFilters]); [requests] logs every [fetch]; [pending] holds, for
    each [loadSales] suspended at its [await], the [gb] it captured. *)
Record State : Type := mkState {
  shop : string;
  rows : list Row;
  seriesKeys : list string;
  selected : gset string;
  currency : option string;
  startEl : string;
  endEl : string;
  groupEl : string;
  metricEl : string;
  chartEl : string;
  showOrdersEl : bool;
  filtersHidden : bool;
  chips : list Chip;
  btnKeys : option (list string);
  status : StatusMsg * bool;
  plot : option Plot;
  requests : list Request;
  pending : list string
}.

(** *** Assignments *)

Definition set_status (v : StatusMsg * bool) (st : State) : State :=
  mkState (shop st) (rows st) (seriesKeys st) (selected st) (currency st)
    (startEl st) (endEl st) (groupEl st) (metricEl st) (chartEl st)
    (showOrdersEl st) (filtersHidden st) (chips st) (btnKeys st) v (plot st)
    (requests st) (pending st).

Definition set_selected (v : gset string) (st : State) : State :=
  mkState (shop st) (rows st) (seriesKeys st) v (currency st)
    (startEl st) (endEl st) (groupEl st) (metricEl st) (chartEl st)
    (showOrdersEl st) (filtersHidden st) (chips st) (btnKeys st) (status st)
    (plot st) (requests st) (pending st).

Definition set_data (r : list Row) (c : option string) (st : State) : State :=
  mkState (shop st) r (seriesKeys st) (selected st) c
    (startEl st) (endEl st) (groupEl st) (metricEl st) (chartEl st)
    (showOrdersEl st) (filtersHidden st) (chips st) (btnKeys st) (status st)
    (plot st) (requests st) (pending st).

Definition set_seriesKeys (v : list string) (st : State) : State :=
  mkState (shop st) (rows st) v (selected st) (currency st)
    (startEl st) (endEl st) (groupEl st) (metricEl st) (chartEl st)
    (showOrdersEl st) (filtersHidden st) (chips st) (btnKeys st) (status st)
    (plot st) (requests st) (pending st).

Definition set_filtersHidden (v : bool) (st : State) : State :=
  mkState (shop st) (rows st) (seriesKeys st) (selected st) (currency st)
    (startEl st) (endEl st) (groupEl st) (metricEl st) (chartEl st)
    (showOrdersEl st) v (chips st) (btnKeys st) (status st)
    (plot st) (requests st) (pending st).

Definition set_chips (v : list Chip) (st : State) : State :=
  mkState (shop st) (rows st) (seriesKeys st) (selected st) (currency st)
    (startEl st) (endEl st) (groupEl st) (metricEl st) (chartEl st)
    (showOrdersEl st) (filtersHidden st) v (btnKeys st) (status st)
    (plot st) (requests st) (pending st).

Definition set_btnKeys (v : option (list string)) (st : State) : State :=
  mkState (shop st) (rows st) (seriesKeys st) (selected st) (currency st)
    (startEl st) (endEl st) (groupEl st) (metricEl st) (chartEl st)
    (showOrdersEl st) (filtersHidden st) (chips st) v (status st)
    (plot st) (requests st) (pending st).

Definition set_plot (v : option Plot) (st : State) : State :=
  mkState (shop st) (rows st) (seriesKeys st) (selected st) (currency st)
    (startEl st) (endEl st) (groupEl st) (metricEl st) (chartEl st)
    (showOrdersEl st) (filtersHidden st) (chips st) (btnKeys st) (status st)
    v (requests st) (pending st).

Definition set_network (rq : list Request) (pd : list string) (st : State) : State :=
  mkState (shop st) (rows st) (seriesKeys st) (selected st) (currency st)
    (startEl st) (endEl st) (groupEl st) (metricEl st) (chartEl st)
    (showOrdersEl st) (filtersHidden st) (chips st) (btnKeys st) (status st)
    (plot st) rq pd.

(** The user's edits of the six controls. *)
Inductive Control : Type :=
| CStart (v : string)
| CEnd (v : string)
| CGroupBy (v : string)
| CMetric (v : string)
| CChartType (v : string)
| CShowOrders (b : bool).

Definition set_control (c : Control) (st : State) : State :=
  mkState (shop st) (rows st) (seriesKeys st) (selected st) (currency st)
    (match c with CStart v => v | _ => startEl st end)
    (match c with CEnd v => v | _ => endEl st end)
    (match c with CGroupBy v => v | _ => groupEl st end)
    (match c with CMetric v => v | _ => metricEl st end)
    (match c with CChartType v => v | _ => chartEl st end)
    (match c with CShowOrders b => b | _ => showOrdersEl st end)
    (filtersHidden st) (chips st) (btnKeys st) (status st)
    (plot st) (requests st) (pending st).

(** ** The functions of the script *)

(** [setStatus(msg, err=false)] *)
Definition setStatus (msg : StatusMsg) (err : bool) (st : State) : State :=
  set_status (msg, err) st.

(** The [dataset.key] of the checked boxes of [#typeChips], in document
    order: what the [querySelectorAll] of [refreshSelected] visits.  The
    selector does not look at the [hide] class of the enclosing card. *)
Definition checkedKeys (cs : list Chip) : list string :=
  map chip_key (List.filter chip_checked cs).

(** [refreshSelected()] *)
Definition refreshSelected (st : State) : State :=
  set_selected (list_to_set (checkedKeys (chips st))) st.

(** [render()]: [refreshSelected], then the chart is built from the closure
    variables and the controls and handed to [Plotly.newPlot]. *)
Definition render (st : State) : State :=
  let st1 := refreshSelected st in
  set_plot (Some (renderPlot (rows st1) (seriesKeys st1) (selected st1)
                             (metricEl st1) (chartEl st1) (showOrdersEl st1)
                             (currency st1))) st1.

(** [buildTypeFilters(keys)]: the chip container is emptied, [selected]
    becomes [new Set(keys)], one checked chip is appended per key, and the
    two buttons receive handlers closing over [keys]. *)
Definition buildTypeFilters (keys : list string) (st : State) : State :=
  let st1 := set_chips [] st in
  let st2 := set_selected (list_to_set keys) st1 in
  let st3 := set_chips (imap (fun i k => mkChip i k true) keys) st2 in
  set_btnKeys (Some keys) st3.

Definition setChecked (b : bool) (c : Chip) : Chip :=
  mkChip (chip_index c) (chip_key c) b.

(** The [onclick] handler of [btnAll] (line 53); nothing is attached before
    the first [buildTypeFilters]. *)
Definition clickAll (st : State) : State :=
  match btnKeys st with
  | None => st
  | Some keys =>
      render (set_selected (list_to_set keys)
                (set_chips (map (setChecked true) (chips st)) st))
  end.

(** The [onclick] handler of [btnNone] (line 54). *)
Definition clickNone (st : State) : State :=
  match btnKeys st with
  | None => st
  | Some keys =>
      render (set_selected ∅
                (set_chips (map (setChecked false) (chips st)) st))
  end.

(** The user ticks or unticks the [i]-th chip: the box flips and its
    [change] listener, [render], runs.  Without such a chip there is no
    event. *)
Definition toggleChip (i : nat) (st : State) : State :=
  match chips st !! i with
  | None => st
  | Some c =>
      render (set_chips (<[ i := setChecked (negb (chip_checked c)) c ]> (chips st)) st)
  end.

(** [loadSales()] up to its [await]: the status is set, the controls are
    read, and [jget] calls [fetch]. *)
Definition loadSales_start (st : State) : State :=
  let st1 := setStatus MsgLoading false st in
  let gb := groupEl st1 in
  let req := mkRequest (shop st1) (startEl st1) (endEl st1) gb (metricEl st1) in
  set_network (requests st1 ++ [req]) (pending st1 ++ [gb]) st1.

(** [res.currency || null] and [res.tz || "?"]: an empty string is falsy. *)
Definition nonEmpty (o : option string) : option string :=
  match o with
  | Some s => if String.eqb s "" then None else Some s
  | None => None
  end.

(** Lines 102-115 of [loadSales], for the invocation that captured [gb]:
    the reply is taken apart, the series keys are derived, the filter card
    is shown and rebuilt or hidden, and the status is set.  The result is
    the state in which line 116 calls [render]. *)
Definition loadSales_reply (gb : string) (res : Response) (st : State) : State :=
  let st1 := set_data (default [] (res_rows res)) (nonEmpty (res_currency res)) st in
  let st2 := set_seriesKeys (deriveSeriesKeys (rows st1)) st1 in
  let st3 :=
    if String.eqb gb "product_type"
    then buildTypeFilters (seriesKeys st2) (set_filtersHidden false st2)
    else set_selected (list_to_set (seriesKeys st2)) (set_filtersHidden true st2) in
  setStatus (MsgLoaded (length (rows st3)) (length (seriesKeys st3))
                       (default "?" (nonEmpty (res_tz res)))) false st3.

(** [loadSales()] from its [await] on: either [jget] threw and the [catch]
    block runs, or the reply is processed and the chart rendered. *)
Definition loadSales_finish (gb : string) (o : Outcome) (st : State) : State :=
  match o with
  | Failed e => setStatus (MsgLoadFailed e) true st
  | Replied res => render (loadSales_reply gb res st)
  end.

(** ** Events *)

(** What can happen to the page once the script has run: a click on the
    Load button, an edit of a control, a click on a chip or on the All/None
    buttons, and the settling of the [i]-th outstanding [fetch]. *)
Inductive Event : Type :=
| ClickLoad
| Change (c : Control)
| ToggleChip (i : nat)
| ClickAll
| ClickNone
| Settle (i : nat) (o : Outcome).

(** The listeners registered at lines 122-130. *)
Definition step (st : State) (ev : Event) : State :=
  match ev with
  | ClickLoad => loadSales_start st
  | Change c =>
      let st1 := set_control c st in
      match c with
      | CChartType _ | CShowOrders _ => render st1
      | CStart _ | CEnd _ | CGroupBy _ | CMetric _ => loadSales_start st1
      end
  | ToggleChip i => toggleChip i st
  | ClickAll => clickAll st
  | ClickNone => clickNone st
  | Settle i o =>
      match pending st !! i with
      | None => st
      | Some gb =>
          loadSales_finish gb o (set_network (requests st) (delete i (pending st)) st)
      end
  end.

Definition run (st : State) (evs : list Event) : State := foldl step st evs.

(** What the script finds when it starts: the [shop] parameter of the
    address ([""] when absent), the default dates it computes, and the
    markup's initial control values and [hide] class. *)
Record Page : Type := mkPage {
  page_shop : string;
  page_start : string;
  page_end : string;
  page_groupBy : string;
  page_metric : string;
  page_chartType : string;
  page_showOrders : bool;
  page_filtersHidden : bool
}.

(** The state after lines 1-31. *)
Definition init (p : Page) : State :=
  {| shop := page_shop p; rows := []; seriesKeys := []; selected := ∅;
     currency := None;
     startEl := page_start p; endEl := page_end p; groupEl := page_groupBy p;
     metricEl := page_metric p; chartEl := page_chartType p;
     showOrdersEl := page_showOrders p;
     filtersHidden := page_filtersHidden p; chips := []; btnKeys := None;
     status := (MsgMarkup, false); plot := None; requests := []; pending := [] |}.

(** Line 132: [if(shop){ loadSales(); } else { setStatus(..., true); }] *)
Definition boot (p : Page) : State :=
  if String.eqb (page_shop p) ""
  then setStatus MsgAddShop true (init p)
  else loadSales_start (init p).

(** A state the page can be in: the script has run and events followed. *)
Definition reachable (st : State) : Prop :=
  exists p evs, st = run (boot p) evs.

(** ** Reading states and charts *)

(** [rows.map(r=>r.date)] *)
Definition rowDates (rws : list Row) : list Value :=
  map (fun r => prop r "date") rws.

(** The trace pushed for one key, whichever branch of [chart==="bar"] is
    taken. *)
Definition keyTraceOf (chart : string) (rws : list Row) : string -> Trace :=
  if String.eqb chart "bar"
  then barTrace (rowDates rws) rws
  else lineTrace (rowDates rws) rws.

(** What it means for the values [ys] of a trace to be the sparse fill of
    field [k] over the rows: one value per row, at the row's position, which
    is [0] when the row has no field [k] and otherwise the field's value
    (or [0] when that value is falsy, as [||] dictates). *)
Definition sparseFilled (rws : list Row) (k : string) (ys : list Value) : Prop :=
  length ys = length rws
  /\ forall (i : nat) (r : Row), rws !! i = Some r ->
       (r !! k = None -> ys !! i = Some (VNum 0))
       /\ (forall v, r !! k = Some v ->
             ys !! i = Some (if truthy v then v else VNum 0)).

(** The names of the product traces of the chart last drawn. *)
Definition traceNames (st : State) : option (list string) :=
  (fun p => map t_name (productTraces p)) <$> plot st.

(** Everything the page holds apart from the status line and the
    bookkeeping of outstanding requests. *)
Definition chartState (st : State) :=
  (rows st, seriesKeys st, selected st, currency st,
   (chips st, btnKeys st, filtersHidden st, plot st),
   (shop st, startEl st, endEl st, groupEl st, metricEl st, chartEl st,
    showOrdersEl st)).

(** The seven inputs the specification gives the renderer, as [render]
    finds them in a state. *)
Definition renderInputs (st : State) :=
  (rows st, seriesKeys st, selected st, metricEl st, chartEl st,
   showOrdersEl st, currency st).

(** What [render] leaves alone: everything but the selection and the chart. *)
Definition renderFrame (st : State) :=
  (shop st, rows st, seriesKeys st, currency st,
   (startEl st, endEl st, groupEl st, metricEl st, chartEl st, showOrdersEl st),
   (filtersHidden st, chips st, btnKeys st),
   (status st, requests st, pending st)).

(** While the filter card is shown, the chips are those of the current
    series keys and the selection lies within them. *)
Definition chipsInSync (st : State) : Prop :=
  filtersHidden st = false ->
  map chip_key (chips st) = seriesKeys st
  /\ selected st ⊆ list_to_set (seriesKeys st).

(** ** Pages, replies and runs used as examples *)

Definition pageByType : Page :=
  {| page_shop := "demo.myshopify.com"; page_start := "2024-01-01";
     page_end := "2024-01-14"; page_groupBy := "product_type";
     page_metric := "sales"; page_chartType := "bar";
     page_showOrders := true; page_filtersHidden := true |}.

(** The same page grouped by day. *)
Definition pageByDay : Page :=
  {| page_shop := "demo.myshopify.com"; page_start := "2024-01-01";
     page_end := "2024-01-14"; page_groupBy := "day";
     page_metric := "sales"; page_chartType := "bar";
     page_showOrders := true; page_filtersHidden := true |}.

(** The same page opened without [?shop=]. *)
Definition pageNoShop : Page :=
  {| page_shop := ""; page_start := "2024-01-01"; page_end := "2024-01-14";
     page_groupBy := "product_type"; page_metric := "sales";
     page_chartType := "bar"; page_showOrders := true;
     page_filtersHidden := true |}.

Definition rowDateA : Row := {[ "date" := VStr "2024-01-01"; "A" := VNum 5 ]}.

Definition rowABC : Row :=
  {[ "date" := VStr "2024-01-01"; "A" := VNum 5; "B" := VNum 2; "C" := VNum 1 ]}.

Definition rowAD : Row :=
  {[ "date" := VStr "2024-01-01"; "A" := VNum 4; "D" := VNum 7 ]}.

(** The rows of scenario A. *)
Definition rowsA : list Row :=
  [ {[ "date" := VStr "2024-01-01"; "A" := VNum 5; "B" := VNum 2;
       "orders_total" := VNum 3 ]};
    {[ "date" := VStr "2024-01-02"; "A" := VNum 0; "orders_total" := VNum 1 ]} ].

Definition plotA : Plot :=
  renderPlot rowsA ["A"; "B"] {[ "A"; "B" ]} "sales" "bar" true (Some "USD").

Definition replyWith (rws : list Row) : Response :=
  {| res_rows := Some rws; res_currency := Some "USD"; res_tz := Some "UTC" |}.

Definition replyOf (rws : list Row) : Outcome := Replied (replyWith rws).

(** A page loaded by product type with keys [A], [B], [C], all ticked. *)
Definition stateABC : State :=
  run (boot pageByType) [Settle 0 (replyOf [rowABC])].

(** ... then [B] and [C] are unticked. *)
Definition stateOnlyA : State :=
  run stateABC [ToggleChip 1; ToggleChip 2].

(** ... then a reload whose reply has keys [A] and [D] (scenario C). *)
Definition stateReloaded : State :=
  run stateOnlyA [ClickLoad; Settle 0 (replyOf [rowAD])].

(** ... or instead the grouping is switched to day, and the reply has keys
    [A] and [D]. *)
Definition stateSwitchedToDay : State :=
  run stateOnlyA [Change (CGroupBy "day"); Settle 0 (replyOf [rowAD])].

(** The state in which the [change] listener of chip [B] calls [render],
    the user having just unticked it on [stateABC]. *)
Definition atUntickB : State :=
  set_chips (<[ 1 := mkChip 1 "B" false ]> (chips stateABC)) stateABC.

(** Two days of a product type named [constructor], sold on the first day
    only, and the page that has loaded them by product type. *)
Definition rowsCtor : list Row :=
  [ {[ "date" := VStr "2024-01-01"; "constructor" := VNum 3 ]};
    {[ "date" := VStr "2024-01-02" ]} ].

Definition stateCtor : State :=
  run (boot pageByType) [Settle 0 (replyOf rowsCtor)].

(** A fresh page grouped by day receives [{date:"2024-01-01", A:5}]. *)
Definition stateByDay : State :=
  run (boot pageByDay) [Settle 0 (replyOf [rowDateA])].

(** The state in which line 116 calls [render] when the first reply,
    [{date:"2024-01-01", A:5}], arrives on page [p]. *)
Definition atRender (p : Page) : State :=
  loadSales_reply (page_groupBy p) (replyWith [rowDateA])
                  (set_network (requests (boot p)) [] (boot p)).

(** Two different states with the same rows, keys, checked chips and
    controls: [stateABC] before and after its status and stored selection
    are disturbed. *)
Definition stateABC_disturbed : State :=
  set_selected ∅ (setStatus MsgLoading false stateABC).

(** ** Readings used by the further properties *)

(** The request [loadSales] builds from the controls as they stand. *)
Definition requestOf (st : State) : Request :=
  mkRequest (shop st) (startEl st) (endEl st) (groupEl st) (metricEl st).

(** The requests sent by the listener of an event: one by each listener
    that is [loadSales], built after the edited control has taken its new
    value, and none by the others. *)
Definition issuedBy (st : State) (ev : Event) : list Request :=
  match ev with
  | ClickLoad => [requestOf st]
  | Change (CChartType _) | Change (CShowOrders _) => []
  | Change c => [requestOf (set_control c st)]
  | ToggleChip _ | ClickAll | ClickNone | Settle _ _ => []
  end.

(** The events whose listener is [render] or one of the chip handlers. *)
Definition isRenderOnly (ev : Event) : bool :=
  match ev with
  | Change (CChartType _) | Change (CShowOrders _)
  | ToggleChip _ | ClickAll | ClickNone => true
  | _ => false
  end.

(** What a render-only event has no business changing. *)
Definition dataState (st : State) :=
  (shop st, rows st, seriesKeys st, currency st,
   (startEl st, endEl st, groupEl st, metricEl st),
   (filtersHidden st, btnKeys st, map chip_key (chips st)),
   (status st, requests st, pending st)).

(** The status texts shown in the error colour. *)
Definition isErrorMsg (m : StatusMsg) : bool :=
  match m with
  | MsgLoadFailed _ | MsgAddShop => true
  | MsgMarkup | MsgLoading | MsgLoaded _ _ _ => false
  end.

(** The label of the value axis of the chart last drawn. *)
Definition axisLabel (st : State) : option string :=
  (fun p => l_yaxis_title (p_layout p)) <$> plot st.

(** The events whose listener is [loadSales]. *)
Definition isReload (ev : Event) : bool :=
  match ev with
  | ClickLoad
  | Change (CStart _) | Change (CEnd _) | Change (CGroupBy _) | Change (CMetric _) => true
  | _ => false
  end.

(** What every state reached from a page start satisfies (proved below),
    in four parts.  The stored keys are those of the stored rows. *)
Definition coherentData (st : State) : Prop :=
  seriesKeys st = deriveSeriesKeys (rows st).

(** Chips are numbered by position and strictly ascending by key; the
    All/None handlers, once attached, close over the chips' keys, and before
    that there is no chip. *)
Definition coherentChips (st : State) : Prop :=
  (forall i c, chips st !! i = Some c -> chip_index c = i)
  /\ StronglySorted str_lt (map chip_key (chips st))
  /\ match btnKeys st with
     | None => chips st = []
     | Some ks => ks = map chip_key (chips st)
     end.

(** The stored selection is the set of checked chips, and no product trace
    has been drawn before the handlers are attached. *)
Definition coherentView (st : State) : Prop :=
  selected st = list_to_set (checkedKeys (chips st))
  /\ (btnKeys st = None -> traceNames st = None \/ traceNames st = Some []).

(** The error colour goes with the two error texts. *)
Definition coherentStatus (st : State) : Prop :=
  snd (status st) = isErrorMsg (fst (status st)).

Definition coherent (st : State) : Prop :=
  coherentData st /\ coherentChips st /\ coherentView st /\ coherentStatus st.

(** ** The address of a request (line 100)

    [encodeURIComponent], on a string given by the bytes of its UTF-8 form:
    the letters, the digits and [- _ . ! ~ * ' ( )] stay as they are, and
    every other byte becomes [%] followed by its two upper-case hexadecimal
    digits.  Characters are named by their codes. *)

Definition isUnescaped (c : Ascii.ascii) : bool :=
  let n := Ascii.N_of_ascii c in
  ((65 <=? n) && (n <=? 90))%N || ((97 <=? n) && (n <=? 122))%N
  || ((48 <=? n) && (n <=? 57))%N
  || bool_decide (n ∈ [45; 95; 46; 33; 126; 42; 39; 40; 41]%N).

Definition hexDigit (n : N) : Ascii.ascii :=
  Ascii.ascii_of_N (if (n <? 10)%N then 48 + n else 55 + n)%N.

(** The characters [%] and [&]. *)
Definition percent : Ascii.ascii := Ascii.ascii_of_N 37.
Definition ampersand : Ascii.ascii := Ascii.ascii_of_N 38.

Definition escapeByte (c : Ascii.ascii) : string :=
  let n := Ascii.N_of_ascii c in
  String percent (String (hexDigit (n / 16)) (String (hexDigit (n mod 16)) "")).

Arguments escapeByte : simpl never.
Arguments isUnescaped : simpl never.

Fixpoint encodeURIComponent (s : string) : string :=
  match s with
  | EmptyString => ""
  | String c s' =>
      (if isUnescaped c then String c "" else escapeByte c) +:+ encodeURIComponent s'
  end.

(** The template literal of line 100, which [jget] passes to [fetch]. *)
Definition salesUrl (r : Request) : string :=
  "/api/sales?shop=" +:+ encodeURIComponent (q_shop r)
  +:+ "&start_date=" +:+ encodeURIComponent (q_start_date r)
  +:+ "&end_date=" +:+ encodeURIComponent (q_end_date r)
  +:+ "&group_by=" +:+ encodeURIComponent (q_group_by r)
  +:+ "&metric=" +:+ encodeURIComponent (q_metric r).

(** Reading an escape back, and whether a character occurs in a string. *)
Definition hexValue (a : Ascii.ascii) : N :=
  let n := Ascii.N_of_ascii a in if (n <? 58)%N then (n - 48)%N else (n - 55)%N.

Definition unescapeByte (s : string) : option Ascii.ascii :=
  match s with
  | String _ (String h (String l EmptyString)) =>
      Some (Ascii.ascii_of_N (16 * hexValue h + hexValue l))
  | _ => None
  end.

Fixpoint occursIn (c : Ascii.ascii) (s : string) : bool :=
  match s with
  | EmptyString => false
  | String c' s' => if Ascii.eqb c c' then true else occursIn c s'
  end.

(** * Properties *)

(** ** The code-unit order on strings *)

Section StringOrder.

Lemma unitRank_inj (a b : Ascii.ascii) : unitRank a = unitRank b -> a = b.
Proof.
  unfold unitRank. intros H.
  rewrite <- (Ascii.ascii_N_embedding a), <- (Ascii.ascii_N_embedding b).
  f_equal. revert H.
  pose proof (Ascii.N_ascii_bounded a). pose proof (Ascii.N_ascii_bounded b).
  repeat case_match; rewrite ?N.ltb_lt, ?N.ltb_ge in *; lia.
Qed.

Lemma jsCompare_refl (s : string) : jsCompare s s = Eq.
Proof.
  induction s as [|a s IH]; simpl; [done|]. by rewrite N.compare_refl.
Qed.

Lemma jsCompare_eq (s1 s2 : string) : jsCompare s1 s2 = Eq -> s1 = s2.
Proof.
  revert s2. induction s1 as [|a s1 IH]; intros [|b s2]; simpl; try done.
  destruct (N.compare (unitRank a) (unitRank b)) eqn:Hab; try done.
  apply N.compare_eq_iff, unitRank_inj in Hab as ->.
  intros H. f_equal. by apply IH.
Qed.

Lemma jsCompare_antisym (s1 s2 : string) :
  jsCompare s2 s1 = CompOpp (jsCompare s1 s2).
Proof.
  revert s2. induction s1 as [|a s1 IH]; intros [|b s2]; simpl; try done.
  rewrite (N.compare_antisym (unitRank a) (unitRank b)).
  destruct (N.compare (unitRank a) (unitRank b)); simpl; [apply IH|done|done].
Qed.

Lemma jsCompare_lt_trans (s1 s2 s3 : string) :
  jsCompare s1 s2 = Lt -> jsCompare s2 s3 = Lt -> jsCompare s1 s3 = Lt.
Proof.
  revert s2 s3. induction s1 as [|a s1 IH]; intros [|b s2] [|c s3]; simpl; try done.
  destruct (N.compare (unitRank a) (unitRank b)) eqn:Hab; try done.
  - apply N.compare_eq_iff in Hab as ->.
    destruct (N.compare (unitRank b) (unitRank c)) eqn:Hbc; try done. apply IH.
  - destruct (N.compare (unitRank b) (unitRank c)) eqn:Hbc; try done.
    + apply N.compare_eq_iff in Hbc as <-. by rewrite Hab.
    + intros _ _. rewrite N.compare_lt_iff in Hab, Hbc.
      assert (unitRank a < unitRank c)%N as H by lia.
      apply N.compare_lt_iff in H. by rewrite H.
Qed.

Lemma str_lt_compare (a b : string) : str_lt a b <-> jsCompare a b = Lt.
Proof. done. Qed.

Lemma str_le_cases (a b : string) : str_le a b <-> a = b \/ str_lt a b.
Proof.
  unfold str_le, str_lt, jsLeb.
  destruct (jsCompare a b) eqn:H.
  - apply jsCompare_eq in H. naive_solver.
  - naive_solver.
  - split; [done|]. intros [->|?]; [|done].
    by rewrite jsCompare_refl in H.
Qed.

Lemma str_lt_irrefl (a : string) : ~ str_lt a a.
Proof. unfold str_lt. by rewrite jsCompare_refl. Qed.

Lemma str_lt_trans (a b c : string) : str_lt a b -> str_lt b c -> str_lt a c.
Proof. apply jsCompare_lt_trans. Qed.

Lemma str_le_trans (a b c : string) : str_le a b -> str_le b c -> str_le a c.
Proof.
  rewrite !str_le_cases. intros [->|H1] [->|H2]; eauto using str_lt_trans.
Qed.

Lemma str_le_antisym (a b : string) : str_le a b -> str_le b a -> a = b.
Proof.
  rewrite !str_le_cases. intros [->|H1] [H|H2]; try done.
  destruct (str_lt_irrefl a). by eapply str_lt_trans.
Qed.

Lemma str_le_total (a b : string) : str_le a b \/ str_le b a.
Proof.
  unfold str_le, jsLeb. rewrite (jsCompare_antisym a b).
  destruct (jsCompare a b); simpl; auto.
Qed.

(** The names [U+FF5E] and [U+1F600]: the second sorts first, as its first
    code unit is the surrogate [D83D]; and plain names sort as usual. *)
Example code_unit_order :
  sortStrings ["～"; "😀"; "b"; "B"; "a"; "é"] = ["B"; "a"; "b"; "é"; "😀"; "～"].
Proof. reflexivity. Qed.

End StringOrder.

(** ** Sorting *)

Section Sorting.

Lemma insertSorted_perm (k : string) (l : list string) :
  Permutation (insertSorted k l) (k :: l).
Proof.
  induction l as [|x l IH]; simpl; [done|].
  destruct (jsLeb k x); [done|].
  rewrite IH. apply perm_swap.
Qed.

Lemma sortStrings_perm (l : list string) : Permutation (sortStrings l) l.
Proof.
  induction l as [|x l IH]; simpl; [done|].
  by rewrite insertSorted_perm, IH.
Qed.

Lemma insertSorted_sorted (k : string) (l : list string) :
  StronglySorted str_le l -> StronglySorted str_le (insertSorted k l).
Proof.
  induction 1 as [|x l Hs IH Hall]; simpl.
  - repeat constructor.
  - destruct (jsLeb k x) eqn:Hkx.
    + constructor; [by constructor|].
      constructor; [done|].
      eapply Forall_impl; [exact Hall|].
      intros y Hy. by eapply str_le_trans.
    + constructor; [done|].
      rewrite insertSorted_perm. constructor; [|done].
      destruct (str_le_total k x) as [H|H]; [|done].
      unfold str_le in H. congruence.
Qed.

Lemma sortStrings_sorted (l : list string) : StronglySorted str_le (sortStrings l).
Proof.
  induction l as [|x l IH]; simpl; [constructor|].
  by apply insertSorted_sorted.
Qed.

(** An ascending list without repetition is strictly ascending. *)
Lemma sorted_NoDup_strict (l : list string) :
  StronglySorted str_le l -> NoDup l -> StronglySorted str_lt l.
Proof.
  induction 1 as [|x l Hs IH Hall]; intros Hnd; [constructor|].
  apply NoDup_cons in Hnd as [Hx Hnd].
  constructor; [by apply IH|].
  apply Forall_forall. intros y Hy.
  rewrite Forall_forall in Hall.
  destruct (proj1 (str_le_cases x y) (Hall y Hy)) as [->|?]; [|done].
  by destruct Hx.
Qed.

(** Two ascending arrangements of the same elements coincide, so the
    result of sorting does not depend on the algorithm or on the order in
    which the elements are presented. *)
Lemma sorted_perm_eq (l1 l2 : list string) :
  StronglySorted str_le l1 -> StronglySorted str_le l2 ->
  Permutation l1 l2 -> l1 = l2.
Proof.
  intros H1. revert l2.
  induction H1 as [|a l1 Hs1 IH Ha]; intros l2 H2 Hp.
  - by apply Permutation_nil in Hp.
  - destruct H2 as [|b l2 Hs2 Hb].
    + symmetry in Hp. by apply Permutation_nil in Hp.
    + assert (a = b) as <-.
      { rewrite Forall_forall in Ha, Hb.
        assert (a ∈ b :: l2) as Hin by (rewrite <- Hp; left).
        assert (b ∈ a :: l1) as Hin' by (rewrite Hp; left).
        apply elem_of_cons in Hin as [?|Hin]; [done|].
        apply elem_of_cons in Hin' as [?|Hin']; [done|].
        apply str_le_antisym; auto. }
      f_equal. apply IH; [done|]. by apply Permutation_cons_inv in Hp.
Qed.

Lemma sortStrings_unique (l l' : list string) :
  Permutation l l' -> sortStrings l = sortStrings l'.
Proof.
  intros Hp. apply sorted_perm_eq; try apply sortStrings_sorted.
  by rewrite !sortStrings_perm.
Qed.

End Sorting.

(** ** Series keys *)

Section SeriesKeys.

Lemma isSeriesField_spec (k : string) :
  isSeriesField k = true <-> k <> "date" /\ k ∉ reservedNames.
Proof.
  unfold isSeriesField, reservedNames.
  rewrite !andb_true_iff, !negb_true_iff, !String.eqb_neq.
  rewrite !not_elem_of_cons. rewrite elem_of_nil. tauto.
Qed.

Lemma elem_of_objectKeys (r : Row) (k : string) :
  k ∈ objectKeys r <-> is_Some (r !! k).
Proof.
  unfold objectKeys. rewrite list_elem_of_fmap. split.
  - intros [[k' v] [-> Hin]]. apply elem_of_map_to_list in Hin. by exists v.
  - intros [v Hv]. exists (k, v). split; [done|]. by apply elem_of_map_to_list.
Qed.

Lemma elem_of_addRowKeys (s : gset string) (r : Row) (k : string) :
  k ∈ addRowKeys s r <-> k ∈ s \/ (is_Some (r !! k) /\ isSeriesField k = true).
Proof.
  unfold addRowKeys. rewrite <- elem_of_objectKeys.
  generalize (objectKeys r) as ks. intros ks. revert s.
  induction ks as [|x ks IH]; intros s; simpl.
  - rewrite elem_of_nil. tauto.
  - rewrite IH, elem_of_cons. destruct (isSeriesField x) eqn:Hx.
    + rewrite elem_of_union, elem_of_singleton.
      intuition (subst; auto).
    + intuition (subst; auto; congruence).
Qed.

Lemma elem_of_foldl_addRowKeys (s : gset string) (rows : list Row) (k : string) :
  k ∈ foldl addRowKeys s rows <->
  k ∈ s \/ ((exists r, r ∈ rows /\ is_Some (r !! k)) /\ isSeriesField k = true).
Proof.
  revert s. induction rows as [|r rows IH]; intros s; simpl.
  - split; [by left|]. intros [?|[(r & Hr & _) _]]; [done|].
    by apply elem_of_nil in Hr.
  - rewrite IH, elem_of_addRowKeys. split.
    + intros [[?|[? ?]]|[(r' & ? & ?) ?]]; [by left|right..].
      * split; [|done]. exists r. split; [left|done].
      * split; [|done]. exists r'. split; [by right|done].
    + intros [?|[(r' & Hin & ?) ?]]; [by left; left|].
      apply elem_of_cons in Hin as [->|Hin]; [left; right; done|].
      right. split; [|done]. by exists r'.
Qed.

Lemma elem_of_collectKeys (rows : list Row) (k : string) :
  k ∈ collectKeys rows <->
  (exists r, r ∈ rows /\ is_Some (r !! k)) /\ isSeriesField k = true.
Proof.
  unfold collectKeys. rewrite elem_of_foldl_addRowKeys.
  rewrite elem_of_empty. tauto.
Qed.

Lemma elem_of_deriveSeriesKeys (rows : list Row) (k : string) :
  k ∈ deriveSeriesKeys rows <->
  (exists r, r ∈ rows /\ is_Some (r !! k)) /\ k <> "date" /\ k ∉ reservedNames.
Proof.
  unfold deriveSeriesKeys.
  rewrite sortStrings_perm, elem_of_elements, elem_of_collectKeys.
  by rewrite isSeriesField_spec.
Qed.

Lemma deriveSeriesKeys_NoDup (rows : list Row) : NoDup (deriveSeriesKeys rows).
Proof.
  unfold deriveSeriesKeys. rewrite sortStrings_perm. apply NoDup_elements.
Qed.

Lemma deriveSeriesKeys_sorted (rows : list Row) :
  StronglySorted str_lt (deriveSeriesKeys rows).
Proof.
  apply sorted_NoDup_strict; [apply sortStrings_sorted|apply deriveSeriesKeys_NoDup].
Qed.

(** However [Array.from(setKeys)] enumerates the set, [sort] returns the
    same array. *)
Lemma deriveSeriesKeys_enumeration (rows : list Row) (l : list string) :
  Permutation l (elements (collectKeys rows)) ->
  sortStrings l = deriveSeriesKeys rows.
Proof. apply sortStrings_unique. Qed.

Lemma loadSales_finish_seriesKeys (gb : string) (res : Response) (st : State) :
  seriesKeys (loadSales_finish gb (Replied res) st)
  = deriveSeriesKeys (default [] (res_rows res)).
Proof.
  unfold loadSales_finish, loadSales_reply. simpl.
  by destruct (String.eqb gb "product_type").
Qed.

End SeriesKeys.

(** C2, as stated, fails: the row [{date:"2024-01-01", A:5}] has the field
    [date], which is not one of the four reserved aggregate names, yet the
    derived key list is [["A"]] and does not contain it. *)
Lemma C2_date_field_not_a_key :
  rowDateA !! "date" = Some (VStr "2024-01-01")
  /\ ("date" ∉ reservedNames)
  /\ deriveSeriesKeys [rowDateA] = ["A"].
Proof.
  split; [by vm_compute|]. split; [|by vm_compute].
  unfold reservedNames. rewrite !not_elem_of_cons, elem_of_nil. naive_solver.
Qed.

(** C2 (amended): for every list of rows the derived series-key list
    contains none of the four reserved aggregate names, has no duplicates and
    is strictly ascending in code-unit order; it contains exactly the field
    names observed across all rows other than [date] and the four reserved
    names; and a successful load stores this list whatever key list was
    stored before. *)
Theorem C2_series_keys (rows : list Row) :
  Forall (fun k => k ∉ reservedNames) (deriveSeriesKeys rows)
  /\ NoDup (deriveSeriesKeys rows)
  /\ StronglySorted str_lt (deriveSeriesKeys rows)
  /\ (forall k : string,
        k ∈ deriveSeriesKeys rows <->
        (exists r, r ∈ rows /\ is_Some (r !! k)) /\ k <> "date" /\ k ∉ reservedNames)
  /\ (forall (st : State) (gb : string) (cur tz : option string),
        seriesKeys (loadSales_finish gb (Replied (mkResponse (Some rows) cur tz)) st)
        = deriveSeriesKeys rows).
Proof.
  split; [|split; [|split; [|split]]].
  - apply Forall_forall. intros k Hk. by apply elem_of_deriveSeriesKeys in Hk as (_ & _ & ?).
  - apply deriveSeriesKeys_NoDup.
  - apply deriveSeriesKeys_sorted.
  - apply elem_of_deriveSeriesKeys.
  - intros. apply loadSales_finish_seriesKeys.
Qed.

(** C10: [date] is not one of the four reserved aggregate names, and for
    every list of rows it is nevertheless absent from the derived series-key
    list. *)
Theorem C10_date_never_a_key :
  ("date" ∉ reservedNames)
  /\ forall rows : list Row, "date" ∉ deriveSeriesKeys rows.
Proof.
  split.
  - unfold reservedNames. rewrite !not_elem_of_cons, elem_of_nil. naive_solver.
  - intros rows Hin. by apply elem_of_deriveSeriesKeys in Hin as (_ & ? & _).
Qed.

(** ** The chart *)

Section Chart.

Variables (rws : list Row) (keys : list string) (sel : gset string).
Variables (metric chart : string) (showOrders : bool) (cur : option string).

Abbreviation dates := (rowDates rws).
Abbreviation keyTrace := (keyTraceOf chart rws).

Lemma keyTrace_name (k : string) : t_name (keyTrace k) = k.
Proof. unfold keyTraceOf. by destruct (String.eqb chart "bar"). Qed.

Lemma keyTrace_y (k : string) : t_y (keyTrace k) = seriesValues rws k.
Proof. unfold keyTraceOf. by destruct (String.eqb chart "bar"). Qed.

Lemma keyTrace_primary (k : string) : onSecondaryAxis (keyTrace k) = false.
Proof. unfold keyTraceOf. by destruct (String.eqb chart "bar"). Qed.

Lemma renderPlot_traces :
  p_traces (renderPlot rws keys sel metric chart showOrders cur)
  = map keyTrace (filter (fun k => k ∈ sel) keys)
    ++ (if showOrders then [ordersTrace dates rws] else []).
Proof.
  unfold renderPlot, keyTraceOf, rowDates. simpl.
  destruct (String.eqb chart "bar"), showOrders; simpl; by rewrite ?app_nil_r.
Qed.

Lemma filter_primary_keyTraces (l : list string) :
  List.filter (fun t => negb (onSecondaryAxis t)) (map keyTrace l) = map keyTrace l.
Proof.
  induction l as [|k l IH]; simpl; [done|].
  by rewrite keyTrace_primary, IH.
Qed.

Lemma filter_secondary_keyTraces (l : list string) :
  List.filter onSecondaryAxis (map keyTrace l) = [].
Proof.
  induction l as [|k l IH]; simpl; [done|].
  by rewrite keyTrace_primary, IH.
Qed.

Lemma renderPlot_productTraces :
  productTraces (renderPlot rws keys sel metric chart showOrders cur)
  = map keyTrace (filter (fun k => k ∈ sel) keys).
Proof.
  unfold productTraces. rewrite renderPlot_traces, List.filter_app.
  rewrite filter_primary_keyTraces. destruct showOrders; simpl; by rewrite app_nil_r.
Qed.

Lemma renderPlot_ordersTraces :
  ordersTraces (renderPlot rws keys sel metric chart showOrders cur)
  = if showOrders then [ordersTrace dates rws] else [].
Proof.
  unfold ordersTraces. rewrite renderPlot_traces, List.filter_app.
  rewrite filter_secondary_keyTraces. by destruct showOrders.
Qed.

Lemma prop_own (r : Row) (k : string) (v : Value) : r !! k = Some v -> prop r k = v.
Proof. unfold prop. by intros ->. Qed.

Lemma prop_absent (r : Row) (k : string) :
  k ∉ objectProtoMembers -> r !! k = None -> prop r k = VUndefined.
Proof. unfold prop. intros Hk ->. by rewrite bool_decide_eq_false_2. Qed.

Lemma prop_inherited (r : Row) (k : string) :
  k ∈ objectProtoMembers -> r !! k = None -> prop r k = VNative k.
Proof. unfold prop. intros Hk ->. by rewrite bool_decide_eq_true_2. Qed.

Lemma seriesValues_sparseFilled (k : string) :
  k ∉ objectProtoMembers -> sparseFilled rws k (seriesValues rws k).
Proof.
  intros Hk. unfold sparseFilled, seriesValues. split; [apply length_map|].
  intros i r Hi.
  change (map ?f rws) with (f <$> rws). rewrite list_lookup_fmap, Hi. simpl.
  unfold js_or. split.
  - intros Hr. by rewrite (prop_absent r k Hk Hr).
  - intros v Hv. rewrite (prop_own r k v Hv). by destruct (truthy v).
Qed.

End Chart.

Lemma size_selected_keys (keys : list string) (sel : gset string) :
  NoDup keys ->
  size (list_to_set keys ∩ sel) = length (filter (fun k => k ∈ sel) keys).
Proof.
  intros Hnd.
  rewrite <- (size_list_to_set (C:=gset string) (filter (fun k => k ∈ sel) keys))
    by by apply NoDup_filter.
  f_equal. apply set_eq. intros k.
  rewrite elem_of_intersection, !elem_of_list_to_set, list_elem_of_filter. tauto.
Qed.

Lemma render_plot (st : State) :
  plot (render st)
  = Some (renderPlot (rows st) (seriesKeys st) (list_to_set (checkedKeys (chips st)))
                     (metricEl st) (chartEl st) (showOrdersEl st) (currency st)).
Proof. reflexivity. Qed.

Lemma render_selected (st : State) :
  selected (render st) = list_to_set (checkedKeys (chips st)).
Proof. reflexivity. Qed.

(** What lines 63-92 build from a given selection: one product trace per
    series key in it, in the order of the key list, then one trace on the
    secondary axis when the show-orders flag is set. *)
Lemma renderPlot_trace_count (rws : list Row) (keys : list string)
    (sel : gset string) (metric chart : string) (showOrders : bool)
    (cur : option string) :
  let p := renderPlot rws keys sel metric chart showOrders cur in
  map t_name (productTraces p) = filter (fun k => k ∈ sel) keys
  /\ length (ordersTraces p) = (if showOrders then 1 else 0)
  /\ Forall (fun t => t_name t = "Orders") (ordersTraces p)
  /\ p_traces p = productTraces p ++ ordersTraces p.
Proof.
  intros p. unfold p.
  rewrite renderPlot_productTraces, renderPlot_ordersTraces, renderPlot_traces.
  split; [|split; [by destruct showOrders|split; [|done]]].
  - rewrite map_map. erewrite map_ext; [apply map_id|].
    intros k. apply keyTrace_name.
  - destruct showOrders; repeat constructor.
Qed.

(** C1, as stated, fails: the selection stored when [render] is called is
    not what [render] filters by.  When the listener of chip [B] calls
    [render] after the user has unticked it, the series keys are [A], [B],
    [C] and the stored selection holds all three, yet two product traces are
    drawn; and at line 116 of a load by day on a fresh page the key list and
    the stored selection both hold [A], yet no product trace is drawn. *)
Lemma C1_stored_selection_is_not_the_filter :
  (seriesKeys atUntickB = ["A"; "B"; "C"]
   /\ selected atUntickB = {[ "A"; "B"; "C" ]}
   /\ size (list_to_set (seriesKeys atUntickB) ∩ selected atUntickB) = 3
   /\ traceNames (render atUntickB) = Some ["A"; "C"])
  /\ (seriesKeys (atRender pageByDay) = ["A"]
      /\ selected (atRender pageByDay) = {[ "A" ]}
      /\ size (list_to_set (seriesKeys (atRender pageByDay))
               ∩ selected (atRender pageByDay)) = 1
      /\ traceNames (render (atRender pageByDay)) = Some []).
Proof. by vm_compute. Qed.

(** C1 (amended): for every rows list, series-key list, set of chips and
    show-orders flag, [render] draws a chart with exactly one product trace
    per series key that is the key of a checked chip, in the order of the
    series-key list, and exactly one further trace, named Orders, on the
    secondary axis and placed last, if and only if the show-orders box is
    ticked.  The selection it filters by is not the one stored before the
    call but the one it reads from the checked chips and stores: with it,
    and for a duplicate-free key list, the number of product traces is the
    size of the intersection of keys and selection. *)
Theorem C1_render_traces (st : State) :
  exists p : Plot,
    plot (render st) = Some p
    /\ selected (render st) = list_to_set (checkedKeys (chips st))
    /\ map t_name (productTraces p)
       = filter (fun k => k ∈ selected (render st)) (seriesKeys st)
    /\ map t_name (productTraces p)
       = filter (fun k => k ∈ checkedKeys (chips st)) (seriesKeys st)
    /\ length (ordersTraces p) = (if showOrdersEl st then 1 else 0)
    /\ Forall (fun t => t_name t = "Orders") (ordersTraces p)
    /\ p_traces p = productTraces p ++ ordersTraces p
    /\ (NoDup (seriesKeys st) ->
        length (productTraces p)
        = size (list_to_set (seriesKeys st) ∩ selected (render st))).
Proof.
  eexists. split; [apply render_plot|].
  rewrite render_selected. split; [done|].
  destruct (renderPlot_trace_count (rows st) (seriesKeys st)
              (list_to_set (checkedKeys (chips st))) (metricEl st) (chartEl st)
              (showOrdersEl st) (currency st)) as (Hn & Ho & Hname & Happ).
  split; [exact Hn|]. split.
  { rewrite Hn. apply list_filter_iff. intros k. apply elem_of_list_to_set. }
  split; [exact Ho|]. split; [exact Hname|]. split; [exact Happ|].
  intros Hnd. rewrite size_selected_keys by done.
  by rewrite <- Hn, length_map.
Qed.

(** C3 does not hold of the code.  [r[k]||0] reads through the prototype
    chain: for the series key [constructor], present in the first row only,
    the second row contributes the inherited [Object.prototype.constructor],
    which is truthy, and not [0].  For every series key that does not name a
    member of [Object.prototype], and for [orders_total], the traces do hold
    the sparse fill: one value per row, in row order, [0] where the row
    lacks the field. *)
Theorem C3_inherited_member_is_charted :
  (seriesKeys stateCtor = ["constructor"]
   /\ ((fun p => map (fun t => (t_name t, t_y t)) (productTraces p)) <$> plot stateCtor)
      = Some [("constructor", [VNum 3; VNative "constructor"])])
  /\ (forall (rws : list Row) (keys : list string) (sel : gset string)
             (metric chart : string) (showOrders : bool) (cur : option string),
        let p := renderPlot rws keys sel metric chart showOrders cur in
        Forall (fun t => t_name t ∉ objectProtoMembers ->
                         sparseFilled rws (t_name t) (t_y t)) (productTraces p)
        /\ Forall (fun t => sparseFilled rws "orders_total" (t_y t)) (ordersTraces p)).
Proof.
  split; [by vm_compute|].
  intros rws keys sel metric chart showOrders cur p. unfold p.
  rewrite renderPlot_productTraces, renderPlot_ordersTraces.
  split.
  - apply Forall_forall. intros t Ht.
    change (map ?f ?l) with (f <$> l) in Ht.
    apply list_elem_of_fmap in Ht as (k & -> & _).
    rewrite keyTrace_name, keyTrace_y. apply seriesValues_sparseFilled.
  - destruct showOrders; [|constructor].
    constructor; [|constructor]. apply seriesValues_sparseFilled.
    by apply (bool_decide_unpack _).
Qed.

(** ** The filter chips *)

Lemma checkedKeys_imap (f : nat -> string -> Chip) (keys : list string) :
  (forall i k, chip_key (f i k) = k /\ chip_checked (f i k) = true) ->
  checkedKeys (imap f keys) = keys.
Proof.
  revert f. induction keys as [|k keys IH]; intros f Hf; [done|].
  unfold checkedKeys in *. simpl.
  destruct (Hf 0 k) as [Hk ->]. simpl. rewrite Hk. f_equal.
  apply IH. intros i k'. apply Hf.
Qed.

Lemma buildTypeFilters_checkedKeys (keys : list string) (st : State) :
  checkedKeys (chips (buildTypeFilters keys st)) = keys.
Proof. simpl. by apply checkedKeys_imap. Qed.

Lemma chip_keys_imap (f : nat -> string -> Chip) (keys : list string) :
  (forall i k, chip_key (f i k) = k) -> map chip_key (imap f keys) = keys.
Proof.
  revert f. induction keys as [|k keys IH]; intros f Hf; [done|].
  simpl. rewrite Hf. f_equal. apply IH. intros i k'. apply Hf.
Qed.

Lemma checkedKeys_subseteq (cs : list Chip) :
  checkedKeys cs ⊆ map chip_key cs.
Proof.
  unfold checkedKeys. intros k Hk.
  change (map ?f ?l) with (f <$> l) in *.
  apply list_elem_of_fmap in Hk as (c & -> & Hc).
  apply list_elem_of_fmap_2. apply list_elem_of_In in Hc.
  apply List.filter_In in Hc as [Hc _]. by apply list_elem_of_In.
Qed.

(** C4: for every key list, [buildTypeFilters] leaves the selection equal
    to that key list as a set, whatever it was before, and the render that
    follows keeps it so; after a partial selection [{A}] over keys
    [{A,B,C}], a reload by product type whose reply has keys [{A,D}] leaves
    the selection at exactly [{A,D}]. *)
Theorem C4_rebuild_resets_selection (keys : list string) (st : State) :
  selected (buildTypeFilters keys st) = list_to_set keys
  /\ selected (render (buildTypeFilters keys st)) = list_to_set keys
  /\ map chip_key (chips (buildTypeFilters keys st)) = keys
  /\ (seriesKeys stateOnlyA = ["A"; "B"; "C"]
      /\ selected stateOnlyA = {[ "A" ]}
      /\ seriesKeys stateReloaded = ["A"; "D"]
      /\ selected stateReloaded = {[ "A"; "D" ]}).
Proof.
  split; [done|]. split; [|split].
  - by rewrite render_selected, buildTypeFilters_checkedKeys.
  - simpl. by apply chip_keys_imap.
  - by vm_compute.
Qed.

(** ** Failed loads *)

(** C5: when the awaited [jget] fails, by a non-success status, a transport
    failure or an unreadable body, the invocation of [loadSales] changes
    neither the rows, the series keys nor the selection (nor the currency,
    chips or chart): before the [await] only the status is set, and the
    [catch] block only sets the status, to the failure message flagged as an
    error. *)
Theorem C5_failed_load_keeps_state (st : State) (gb : string) (e : LoadError) :
  chartState (loadSales_start st) = chartState st
  /\ chartState (loadSales_finish gb (Failed e) st) = chartState st
  /\ status (loadSales_finish gb (Failed e) st) = (MsgLoadFailed e, true)
  /\ (let st' := run st [ClickLoad; Settle (length (pending st)) (Failed e)] in
      rows st' = rows st /\ seriesKeys st' = seriesKeys st
      /\ selected st' = selected st /\ chartState st' = chartState st
      /\ status st' = (MsgLoadFailed e, true)
      /\ requests st' = requests st ++ [mkRequest (shop st) (startEl st) (endEl st)
                                                  (groupEl st) (metricEl st)]).
Proof.
  split; [done|]. split; [done|]. split; [done|].
  simpl. rewrite lookup_app_r by done. rewrite Nat.sub_diag. simpl. done.
Qed.

(** ** Loads by a dimension other than product type *)

(** After a successful load the chart is built from the new rows and keys,
    filtered by the chips that were checked before the load when the
    grouping is not [product_type]: the assignment at line 113 is
    overwritten by the [refreshSelected] that opens [render]. *)
Lemma loadSales_other_grouping_plot (gb : string) (res : Response) (st : State) :
  String.eqb gb "product_type" = false ->
  plot (loadSales_finish gb (Replied res) st)
  = Some (renderPlot (default [] (res_rows res))
                     (deriveSeriesKeys (default [] (res_rows res)))
                     (list_to_set (checkedKeys (chips st)))
                     (metricEl st) (chartEl st) (showOrdersEl st)
                     (nonEmpty (res_currency res))).
Proof.
  intros Hgb. unfold loadSales_finish, loadSales_reply.
  rewrite render_plot. simpl. by rewrite Hgb.
Qed.

(** C6 does not hold of the code.  On a fresh page grouped by day, a reply
    with the single series key [A] is charted with no product trace at all,
    although the filter card is hidden; and chips left from a load by product
    type keep filtering: with only [A] ticked, a reply by day with keys [A]
    and [D] is charted with the trace of [A] alone. *)
Theorem C6_hidden_chips_filter_the_chart :
  (groupEl stateByDay = "day"
   /\ filtersHidden stateByDay = true
   /\ seriesKeys stateByDay = ["A"]
   /\ chips stateByDay = []
   /\ traceNames stateByDay = Some [])
  /\ (groupEl stateSwitchedToDay = "day"
      /\ filtersHidden stateSwitchedToDay = true
      /\ seriesKeys stateSwitchedToDay = ["A"; "D"]
      /\ checkedKeys (chips stateSwitchedToDay) = ["A"]
      /\ traceNames stateSwitchedToDay = Some ["A"]).
Proof. by vm_compute. Qed.

(** ** A page without a shop *)

(** Every way into [loadSales] issues a request, whatever [shop] is. *)
Lemma loadSales_start_requests (st : State) :
  requests (loadSales_start st)
  = requests st ++ [mkRequest (shop st) (startEl st) (endEl st) (groupEl st) (metricEl st)].
Proof. reflexivity. Qed.

(** C7 does not hold of the code.  Without a shop the script itself issues
    no request and reports the missing shop, but the listeners are registered
    all the same: a click on the Load button, or an edit of the metric, sends
    a request with an empty [shop] parameter and replaces the status by the
    loading message. *)
Theorem C7_load_without_shop_reaches_backend :
  (requests (boot pageNoShop) = []
   /\ status (boot pageNoShop) = (MsgAddShop, true))
  /\ (requests (run (boot pageNoShop) [ClickLoad])
      = [mkRequest "" "2024-01-01" "2024-01-14" "product_type" "sales"]
      /\ status (run (boot pageNoShop) [ClickLoad]) = (MsgLoading, false))
  /\ requests (run (boot pageNoShop) [Change (CMetric "units")])
     = [mkRequest "" "2024-01-01" "2024-01-14" "product_type" "units"].
Proof. by vm_compute. Qed.

(** ** The selection invariant *)

Section Invariant.

Lemma chip_keys_setChecked (b : bool) (cs : list Chip) :
  map chip_key (map (setChecked b) cs) = map chip_key cs.
Proof. rewrite map_map. by apply map_ext. Qed.

Lemma chip_keys_flip (i : nat) (c : Chip) (b : bool) (cs : list Chip) :
  cs !! i = Some c ->
  map chip_key (<[ i := setChecked b c ]> cs) = map chip_key cs.
Proof.
  intros Hi. change (map ?f ?l) with (f <$> l).
  rewrite list_fmap_insert. simpl.
  apply list_insert_id. by rewrite list_lookup_fmap, Hi.
Qed.

Lemma checkedKeys_in_chip_keys (cs : list Chip) :
  list_to_set (checkedKeys cs) ⊆@{gset string} list_to_set (map chip_key cs).
Proof.
  intros k. rewrite !elem_of_list_to_set. apply checkedKeys_subseteq.
Qed.

(** [render] re-establishes the selection part from the chips alone. *)
Lemma render_in_sync (st : State) :
  (filtersHidden st = false -> map chip_key (chips st) = seriesKeys st) ->
  chipsInSync (render st).
Proof.
  intros H Hshown. simpl in *. split; [by apply H|].
  rewrite <- (H Hshown). apply checkedKeys_in_chip_keys.
Qed.

Lemma toggleChip_in_sync (i : nat) (st : State) :
  chipsInSync st -> chipsInSync (toggleChip i st).
Proof.
  intros Hinv. unfold toggleChip. destruct (chips st !! i) as [c|] eqn:Hi; [|done].
  apply render_in_sync. simpl. intros Hshown.
  rewrite (chip_keys_flip i c) by done. by apply Hinv.
Qed.

Lemma clickAll_in_sync (st : State) : chipsInSync st -> chipsInSync (clickAll st).
Proof.
  intros Hinv. unfold clickAll. destruct (btnKeys st); [|done].
  apply render_in_sync. simpl. intros Hshown.
  rewrite chip_keys_setChecked. by apply Hinv.
Qed.

Lemma clickNone_in_sync (st : State) : chipsInSync st -> chipsInSync (clickNone st).
Proof.
  intros Hinv. unfold clickNone. destruct (btnKeys st); [|done].
  apply render_in_sync. simpl. intros Hshown.
  rewrite chip_keys_setChecked. by apply Hinv.
Qed.

Lemma toggleChip_filtersHidden (i : nat) (st : State) :
  filtersHidden (toggleChip i st) = filtersHidden st.
Proof. unfold toggleChip. by destruct (chips st !! i). Qed.

Lemma clickAll_filtersHidden (st : State) :
  filtersHidden (clickAll st) = filtersHidden st.
Proof. unfold clickAll. by destruct (btnKeys st). Qed.

Lemma clickNone_filtersHidden (st : State) :
  filtersHidden (clickNone st) = filtersHidden st.
Proof. unfold clickNone. by destruct (btnKeys st). Qed.

Lemma loadSales_start_in_sync (st : State) :
  chipsInSync st -> chipsInSync (loadSales_start st).
Proof. done. Qed.

Lemma loadSales_finish_in_sync (gb : string) (o : Outcome) (st : State) :
  chipsInSync st -> chipsInSync (loadSales_finish gb o st).
Proof.
  intros Hinv. destruct o as [e|res]; [done|].
  unfold loadSales_finish. apply render_in_sync.
  unfold loadSales_reply. simpl.
  destruct (String.eqb gb "product_type"); simpl; [|done].
  intros _. by apply chip_keys_imap.
Qed.

Lemma set_control_in_sync (c : Control) (st : State) :
  chipsInSync st -> chipsInSync (set_control c st).
Proof. done. Qed.

Lemma set_network_in_sync (rq : list Request) (pd : list string) (st : State) :
  chipsInSync st -> chipsInSync (set_network rq pd st).
Proof. done. Qed.

Lemma render_keeps_sync (st : State) : chipsInSync st -> chipsInSync (render st).
Proof. intros Hinv. apply render_in_sync. intros Hs. by apply Hinv. Qed.

Create HintDb sync.

#[local] Hint Resolve toggleChip_in_sync clickAll_in_sync clickNone_in_sync
  loadSales_start_in_sync loadSales_finish_in_sync set_control_in_sync
  set_network_in_sync render_keeps_sync : sync.

(** Every listener preserves the invariant. *)
Lemma step_in_sync (st : State) (ev : Event) :
  chipsInSync st -> chipsInSync (step st ev).
Proof.
  intros Hinv. destruct ev as [|c|i| | |i o]; simpl; auto with sync.
  - destruct c; auto with sync.
  - destruct (pending st !! i); auto with sync.
Qed.

Lemma boot_in_sync (p : Page) : chipsInSync (boot p).
Proof.
  unfold boot. destruct (String.eqb (page_shop p) ""); by intros _.
Qed.

Lemma run_in_sync (st : State) (evs : list Event) :
  chipsInSync st -> chipsInSync (run st evs).
Proof.
  revert st. induction evs as [|ev evs IH]; intros st Hinv; [done|].
  simpl. apply IH. by apply step_in_sync.
Qed.

Lemma reachable_in_sync (st : State) : reachable st -> chipsInSync st.
Proof. intros (p & evs & ->). apply run_in_sync, boot_in_sync. Qed.

End Invariant.




(** ** [render] and the state around it *)

(** C9, as stated, fails: the two calls of [render] below, made by
    [loadSales] at line 116 on a page grouped by product type and on the
    same page grouped by day, receive the same rows, series keys, selection,
    metric, chart type, show-orders flag and currency, yet one charts the
    series [A] and the other charts no series, because [render] reads the
    chips; and the second call changes the selection from [{A}] to the empty
    set. *)
Lemma C9_render_reads_chips_and_writes_selection :
  renderInputs (atRender pageByType) = renderInputs (atRender pageByDay)
  /\ traceNames (render (atRender pageByType)) = Some ["A"]
  /\ traceNames (render (atRender pageByDay)) = Some []
  /\ selected (atRender pageByDay) = {[ "A" ]}
  /\ selected (render (atRender pageByDay)) = ∅
  /\ render (atRender pageByDay) = stateByDay.
Proof. by vm_compute. Qed.

(** C9 (amended): the chart [render] produces is a function of the rows,
    the series keys, the checked chips, the metric, the chart type, the
    show-orders flag and the currency: two states that agree on these yield
    the same chart.  [render] does not take the selection as an input: it
    overwrites the stored selection with the keys of the checked chips and
    changes nothing else, and rendering twice is the same as rendering
    once. *)
Theorem C9_render_function_of_state (st : State) :
  plot (render st)
  = Some (renderPlot (rows st) (seriesKeys st) (list_to_set (checkedKeys (chips st)))
                     (metricEl st) (chartEl st) (showOrdersEl st) (currency st))
  /\ selected (render st) = list_to_set (checkedKeys (chips st))
  /\ renderFrame (render st) = renderFrame st
  /\ render (render st) = render st
  /\ (forall st2 : State,
        rows st = rows st2 -> seriesKeys st = seriesKeys st2 ->
        checkedKeys (chips st) = checkedKeys (chips st2) ->
        metricEl st = metricEl st2 -> chartEl st = chartEl st2 ->
        showOrdersEl st = showOrdersEl st2 -> currency st = currency st2 ->
        plot (render st) = plot (render st2)).
Proof.
  split; [done|]. split; [done|]. split; [done|]. split; [done|].
  intros st2 Hr Hk Hc Hm Hch Hs Hcur.
  rewrite !render_plot. by rewrite Hr, Hk, Hc, Hm, Hch, Hs, Hcur.
Qed.

Lemma C9_render_function_of_state_witness :
  plot (render stateABC) = plot (render stateABC_disturbed)
  /\ selected (render stateABC_disturbed) = {[ "A"; "B"; "C" ]}.
Proof.
  pose proof (C9_render_function_of_state stateABC) as (_ & _ & _ & _ & H).
  split.
  - apply (H stateABC_disturbed); vm_compute; reflexivity.
  - by vm_compute.
Defined.

(** ** The scenarios of the specification *)

(** Scenario A: [B] is absent on the second day and charted as [0] there. *)
Example scenarioA_traces :
  map (fun t => (t_name t, t_type t, t_y t, t_yaxis t)) (p_traces plotA)
  = [ ("A", TBar, [VNum 5; VNum 0], None);
      ("B", TBar, [VNum 2; VNum 0], None);
      ("Orders", TScatter, [VNum 3; VNum 1], Some "y2") ].
Proof. by vm_compute. Qed.

Example scenarioA_layout :
  l_title (p_layout plotA) = "Daily Product Mix (Sales $)"
  /\ l_yaxis_title (p_layout plotA) = "Sales (USD)".
Proof. by vm_compute. Qed.

(** Scenario B: a reply without rows gives no trace and no chip, and the
    status reports zero days. *)
Example scenarioB_empty :
  let st := run (boot pageByType) [Settle 0 (replyOf [])] in
  traceNames st = Some [] /\ chips st = []
  /\ status st = (MsgLoaded 0 0 "UTC", false).
Proof. by vm_compute. Qed.

(** The same when the reply has no [rows] member at all. *)
Example missing_rows_is_empty :
  let st := run (boot pageByType) [Settle 0 (Replied (mkResponse None None None))] in
  traceNames st = Some [] /\ rows st = [] /\ seriesKeys st = []
  /\ status st = (MsgLoaded 0 0 "?", false).
Proof. by vm_compute. Qed.

(** None followed by a render leaves the Orders trace only. *)
Example none_keeps_orders :
  (fun p => map t_name (p_traces p)) <$> plot (run stateABC [ClickNone])
  = Some ["Orders"].
Proof. by vm_compute. Qed.

(** Falsy values: both zeros and the other falsy fields are charted as [0]. *)
Example falsy_values_chart_as_zero :
  seriesValues [ {[ "k" := VNum (-0) ]}; {[ "k" := VNull ]}; {[ "k" := VStr "" ]};
                 {[ "k" := VBool false ]}; {[ "k" := VNum 2.5 ]}; ∅ ] "k"
  = [VNum 0; VNum 0; VNum 0; VNum 0; VNum 2.5; VNum 0].
Proof. by vm_compute. Qed.

Lemma stateABC_keys : seriesKeys stateABC = ["A"; "B"; "C"].
Proof. by vm_compute. Qed.

Lemma C1_render_traces_witness :
  exists p : Plot,
    plot (render stateABC) = Some p
    /\ length (productTraces p)
       = size (list_to_set (seriesKeys stateABC) ∩ selected (render stateABC)).
Proof.
  destruct (C1_render_traces stateABC) as (p & Hp & _ & _ & _ & _ & _ & _ & Hs).
  exists p. split; [exact Hp|]. apply Hs.
  rewrite stateABC_keys. by apply (bool_decide_unpack _).
Defined.

Lemma C3_inherited_member_is_charted_witness :
  Forall (fun t => t_name t ∉ objectProtoMembers ->
                   sparseFilled rowsA (t_name t) (t_y t)) (productTraces plotA).
Proof.
  destruct C3_inherited_member_is_charted as [_ H].
  exact (proj1 (H rowsA ["A"; "B"] {[ "A"; "B" ]} "sales" "bar" true (Some "USD"))).
Defined.

(** * Further properties of the script *)

(** ** The shape of a chart *)

Lemma filter_all_selected (keys : list string) :
  filter (fun k => k ∈ (list_to_set keys : gset string)) keys = keys.
Proof.
  assert (forall (sel : gset string) (l : list string),
            (forall k, k ∈ l -> k ∈ sel) -> filter (fun k => k ∈ sel) l = l) as H.
  { intros sel l. induction l as [|k l IH]; intros Hl; [done|].
    rewrite filter_cons_True by (apply Hl; left).
    f_equal. apply IH. intros k' Hk'. apply Hl. by right. }
  apply H. intros k Hk. by apply elem_of_list_to_set.
Qed.

Lemma seriesValues_never_falsy (rws : list Row) (k : string) :
  Forall (fun v => truthy v = true \/ v = VNum 0) (seriesValues rws k).
Proof.
  unfold seriesValues. apply Forall_forall. intros v Hv.
  change (map ?f ?l) with (f <$> l) in Hv.
  apply list_elem_of_fmap in Hv as (r & -> & _).
  unfold js_or. destruct (truthy (prop r k)) eqn:Ht; auto.
Qed.

(** X1: every trace of a chart has the rows' dates as its x values, one
    per row and [undefined] where a row has no [date] (dates are not
    filled), and as many y values as x values; no charted value is falsy
    other than [0]; the product traces are bars exactly when the chart type
    is the string [bar] and lines with markers for any other value, and the
    Orders trace is always a line with markers. *)
Theorem X1_trace_shape (rws : list Row) (keys : list string)
    (sel : gset string) (metric chart : string) (showOrders : bool)
    (cur : option string) :
  let p := renderPlot rws keys sel metric chart showOrders cur in
  Forall (fun t => length (t_x t) = length rws
                   /\ length (t_y t) = length rws
                   /\ (forall i r, rws !! i = Some r ->
                         t_x t !! i = Some (default VUndefined (r !! "date")))
                   /\ Forall (fun v => truthy v = true \/ v = VNum 0) (t_y t))
         (p_traces p)
  /\ Forall (fun t => if String.eqb chart "bar"
                      then t_type t = TBar /\ t_mode t = None
                      else t_type t = TScatter /\ t_mode t = Some "lines+markers")
            (productTraces p)
  /\ Forall (fun t => t_type t = TScatter /\ t_mode t = Some "lines+markers")
            (ordersTraces p).
Proof.
  intros p. unfold p.
  rewrite renderPlot_productTraces, renderPlot_ordersTraces, renderPlot_traces.
  assert (forall i r, rws !! i = Some r ->
            rowDates rws !! i = Some (default VUndefined (r !! "date"))) as Hx.
  { intros i r Hi. unfold rowDates. change (map ?f ?l) with (f <$> l).
    by rewrite list_lookup_fmap, Hi. }
  assert (length (rowDates rws) = length rws) as Hlen by apply length_map.
  split; [|split].
  - apply Forall_app. split.
    + apply Forall_forall. intros t Ht.
      change (map ?f ?l) with (f <$> l) in Ht.
      apply list_elem_of_fmap in Ht as (k & -> & _).
      unfold keyTraceOf. destruct (String.eqb chart "bar"); simpl;
        (split; [done|split; [apply length_map|split; [done|]]]);
        apply seriesValues_never_falsy.
    + destruct showOrders; [|constructor].
      constructor; [|constructor]. simpl.
      split; [done|split; [apply length_map|split; [done|]]].
      apply seriesValues_never_falsy.
  - apply Forall_forall. intros t Ht.
    change (map ?f ?l) with (f <$> l) in Ht.
    apply list_elem_of_fmap in Ht as (k & -> & _).
    unfold keyTraceOf. by destruct (String.eqb chart "bar").
  - destruct showOrders; repeat constructor.
Qed.

Lemma X1_trace_shape_witness :
  Forall (fun t => t_type t = TBar /\ t_mode t = None) (productTraces plotA).
Proof.
  pose proof (X1_trace_shape rowsA ["A"; "B"] {[ "A"; "B" ]} "sales" "bar"
                true (Some "USD")) as (_ & H & _).
  exact H.
Defined.

(** ** Successful loads *)

Lemma loadSales_finish_plot (gb : string) (res : Response) (st : State) :
  plot (loadSales_finish gb (Replied res) st)
  = Some (renderPlot (default [] (res_rows res))
            (deriveSeriesKeys (default [] (res_rows res)))
            (list_to_set (checkedKeys
               (chips (loadSales_reply gb res st))))
            (metricEl st) (chartEl st) (showOrdersEl st)
            (nonEmpty (res_currency res))).
Proof.
  unfold loadSales_finish. rewrite render_plot.
  unfold loadSales_reply. simpl. by destruct (String.eqb gb "product_type").
Qed.

(** X2: a successful load by product type shows the filter card with one
    checked chip per derived series key, in key order and numbered by
    position, attaches the All/None handlers for those keys, selects every
    key, and charts one product trace per key, in key order. *)
Theorem X2_load_by_type_charts_every_key (st : State) (res : Response) :
  let keys := deriveSeriesKeys (default [] (res_rows res)) in
  let st' := loadSales_finish "product_type" (Replied res) st in
  filtersHidden st' = false
  /\ chips st' = imap (fun i k => mkChip i k true) keys
  /\ btnKeys st' = Some keys
  /\ selected st' = list_to_set keys
  /\ traceNames st' = Some keys
  /\ (length <$> (p_traces <$> plot st'))
     = Some (length keys + (if showOrdersEl st then 1 else 0)).
Proof.
  intros keys st'. subst st' keys.
  split; [done|]. split; [done|]. split; [done|].
  assert (checkedKeys (chips (loadSales_reply "product_type" res st))
          = deriveSeriesKeys (default [] (res_rows res))) as Hck.
  { unfold loadSales_reply. simpl. by apply checkedKeys_imap. }
  split; [|split].
  - unfold loadSales_finish. by rewrite render_selected, Hck.
  - unfold traceNames. rewrite loadSales_finish_plot, Hck. simpl.
    rewrite renderPlot_productTraces, filter_all_selected.
    f_equal. rewrite map_map. erewrite map_ext; [apply map_id|].
    intros k. apply keyTrace_name.
  - rewrite loadSales_finish_plot, Hck. simpl.
    rewrite filter_all_selected.
    destruct (String.eqb (chartEl st) "bar"), (showOrdersEl st);
      simpl; rewrite ?length_app, length_map; simpl; f_equal; lia.
Qed.

(** X3: a successful load by any grouping other than [product_type] hides
    the filter card but leaves its chips and the All/None handlers as they
    were, and the chart it draws has a product trace exactly for the new
    series keys that are the key of a chip checked before the load; with no
    chip on the page it draws no product trace. *)
Theorem X3_load_by_other_grouping (st : State) (gb : string) (res : Response) :
  gb <> "product_type" ->
  let keys := deriveSeriesKeys (default [] (res_rows res)) in
  let st' := loadSales_finish gb (Replied res) st in
  filtersHidden st' = true
  /\ chips st' = chips st
  /\ btnKeys st' = btnKeys st
  /\ selected st' = list_to_set (checkedKeys (chips st))
  /\ traceNames st' = Some (filter (fun k => k ∈ checkedKeys (chips st)) keys)
  /\ (chips st = [] -> traceNames st' = Some []).
Proof.
  intros Hgb keys st'. subst st' keys.
  apply String.eqb_neq in Hgb.
  assert (traceNames (loadSales_finish gb (Replied res) st)
          = Some (filter (fun k => k ∈ checkedKeys (chips st))
                         (deriveSeriesKeys (default [] (res_rows res))))) as Ht.
  { unfold traceNames. rewrite loadSales_other_grouping_plot by done. simpl.
    rewrite renderPlot_productTraces. f_equal.
    rewrite map_map. erewrite map_ext; [|intros k; apply keyTrace_name].
    rewrite map_id. apply list_filter_iff. intros k.
    apply elem_of_list_to_set. }
  split; [|split; [|split; [|split; [|split; [exact Ht|]]]]];
    try (unfold loadSales_finish, loadSales_reply; simpl; by rewrite Hgb).
  intros Hnil. rewrite Ht, Hnil. f_equal. simpl.
  generalize (deriveSeriesKeys (default [] (res_rows res))) as l.
  induction l as [|k l IH]; [done|].
  rewrite filter_cons_False; [exact IH|]. apply not_elem_of_nil.
Qed.

Lemma X3_load_by_other_grouping_witness :
  traceNames (loadSales_finish "day" (replyOf [rowAD]) stateOnlyA) = Some ["A"].
Proof.
  assert ("day" <> "product_type") as Hgb by discriminate.
  pose proof (X3_load_by_other_grouping stateOnlyA "day" (replyWith [rowAD]) Hgb)
    as (_ & _ & _ & _ & Ht & _).
  etrans; [exact Ht|]. by vm_compute.
Defined.

Lemma deriveSeriesKeys_nil : deriveSeriesKeys [] = [].
Proof. reflexivity. Qed.

(** X4: a reply whose [rows] member is missing, or is an empty array, is
    not an error: whatever the grouping and whatever was loaded before, the
    rows and the series keys become empty, the chart has no product trace
    (only an Orders trace without points if the box is ticked), the status
    reports zero days and zero series without the error colour, and a load
    by product type leaves no chip and an empty selection. *)
Theorem X4_reply_without_rows (st : State) (gb : string)
    (rws : option (list Row)) (cur tz : option string) :
  default [] rws = [] ->
  let st' := loadSales_finish gb (Replied (mkResponse rws cur tz)) st in
  rows st' = [] /\ seriesKeys st' = []
  /\ (p_traces <$> plot st')
     = Some (if showOrdersEl st then [ordersTrace [] []] else [])
  /\ status st' = (MsgLoaded 0 0 (default "?" (nonEmpty tz)), false)
  /\ (gb = "product_type" -> chips st' = [] /\ selected st' = ∅).
Proof.
  intros Hr st'. subst st'.
  assert (rws = None \/ rws = Some []) as [-> | ->]
    by (destruct rws; simpl in Hr; subst; auto).
  all: rewrite loadSales_finish_plot; unfold loadSales_finish, loadSales_reply; simpl.
  all: rewrite deriveSeriesKeys_nil.
  all: split; [by destruct (String.eqb gb "product_type")|].
  all: split; [by destruct (String.eqb gb "product_type")|].
  all: split; [unfold renderPlot; simpl;
               by destruct (String.eqb (chartEl st) "bar"), (showOrdersEl st)|].
  all: split; [by destruct (String.eqb gb "product_type")|].
  all: by intros ->.
Qed.

Lemma X4_reply_without_rows_witness :
  rows (loadSales_finish "product_type" (Replied (mkResponse None None None)) stateABC) = []
  /\ chips (loadSales_finish "product_type" (Replied (mkResponse None None None)) stateABC) = [].
Proof.
  pose proof (X4_reply_without_rows stateABC "product_type" None None None eq_refl)
    as (Hr & _ & _ & _ & Hc).
  split; [exact Hr|]. by apply Hc.
Defined.

(** X5: the currency of the value axis is that of the latest successful
    reply, never an earlier one: with the metric control at [sales] the
    label is [Sales (c)] for a reply with the non-empty currency [c], and
    [Sales (USD)] for a reply whose currency is missing or empty, whatever
    currency was stored before; with any other metric value the label is
    [Units] and no currency shows. *)
Theorem X5_axis_label_after_load (st : State) (gb : string) (res : Response) :
  let st' := loadSales_finish gb (Replied res) st in
  currency st' = nonEmpty (res_currency res)
  /\ (metricEl st = "sales" ->
        (forall c, res_currency res = Some c -> c <> "" ->
           axisLabel st' = Some ("Sales (" +:+ c +:+ ")"))
        /\ (res_currency res = None \/ res_currency res = Some "" ->
           axisLabel st' = Some "Sales (USD)"))
  /\ (metricEl st <> "sales" -> axisLabel st' = Some "Units").
Proof.
  intros st'. subst st'. unfold axisLabel. rewrite loadSales_finish_plot. simpl.
  split.
  { unfold loadSales_finish, loadSales_reply. simpl.
    by destruct (String.eqb gb "product_type"). }
  split.
  - intros ->. simpl. split.
    + intros c -> Hc. simpl. apply String.eqb_neq in Hc. by rewrite Hc.
    + by intros [-> | ->].
  - intros Hm. apply String.eqb_neq in Hm. by rewrite Hm.
Qed.

Lemma X5_axis_label_after_load_witness :
  axisLabel (loadSales_finish "day" (Replied (mkResponse None (Some "") None)) stateABC)
  = Some "Sales (USD)".
Proof.
  pose proof (X5_axis_label_after_load stateABC "day" (mkResponse None (Some "") None))
    as (_ & H & _).
  destruct (H eq_refl) as [_ H']. apply H'. by right.
Defined.

(** ** Overlapping loads *)

(** X6: nothing orders the replies of two outstanding loads.  When the
    reply to the later request arrives first and the reply to the earlier
    one second, the page ends with the rows, series keys and currency of the
    earlier request, and the filter card is shown or hidden by the grouping
    that request was made with, not by the grouping control.  When instead
    the earlier request fails last, the data of the later reply stay and the
    status shows the failure. *)
Theorem X6_last_settled_reply_wins (st : State) (g1 g2 : string)
    (r1 r2 : Response) (e : LoadError) :
  pending st = [g1; g2] ->
  (let st' := run st [Settle 1 (Replied r2); Settle 0 (Replied r1)] in
   rows st' = default [] (res_rows r1)
   /\ seriesKeys st' = deriveSeriesKeys (default [] (res_rows r1))
   /\ currency st' = nonEmpty (res_currency r1)
   /\ filtersHidden st' = negb (String.eqb g1 "product_type")
   /\ pending st' = [] /\ requests st' = requests st)
  /\ (let st' := run st [Settle 1 (Replied r2); Settle 0 (Failed e)] in
      rows st' = default [] (res_rows r2)
      /\ seriesKeys st' = deriveSeriesKeys (default [] (res_rows r2))
      /\ filtersHidden st' = negb (String.eqb g2 "product_type")
      /\ status st' = (MsgLoadFailed e, true)
      /\ pending st' = [] /\ requests st' = requests st).
Proof.
  intros Hp. simpl. rewrite Hp. simpl.
  unfold loadSales_finish, loadSales_reply. simpl.
  destruct (String.eqb g2 "product_type"); simpl;
    destruct (String.eqb g1 "product_type"); simpl; done.
Qed.

Lemma X6_last_settled_reply_wins_witness :
  seriesKeys (run (run stateABC [ClickLoad; Change (CGroupBy "day")])
                  [Settle 1 (replyOf [rowAD]); Settle 0 (replyOf [rowABC])])
  = ["A"; "B"; "C"]
  /\ filtersHidden (run (run stateABC [ClickLoad; Change (CGroupBy "day")])
                        [Settle 1 (replyOf [rowAD]); Settle 0 (replyOf [rowABC])])
     = false.
Proof.
  pose proof (X6_last_settled_reply_wins
                (run stateABC [ClickLoad; Change (CGroupBy "day")])
                "product_type" "day" (replyWith [rowABC]) (replyWith [rowAD])
                (TransportError "") eq_refl) as [(_ & Hk & _ & Hh & _) _].
  split; [etrans; [exact Hk|by vm_compute]|exact Hh].
Defined.

(** ** Network traffic *)

Lemma step_requests (st : State) (ev : Event) :
  requests (step st ev) = requests st ++ issuedBy st ev.
Proof.
  destruct ev as [|c|i| | |i o]; simpl.
  - done.
  - by destruct c; simpl; rewrite ?app_nil_r.
  - unfold toggleChip. destruct (chips st !! i); simpl; by rewrite app_nil_r.
  - unfold clickAll. destruct (btnKeys st); simpl; by rewrite app_nil_r.
  - unfold clickNone. destruct (btnKeys st); simpl; by rewrite app_nil_r.
  - rewrite app_nil_r. destruct (pending st !! i); [|done].
    destruct o; [done|]. unfold loadSales_finish, loadSales_reply. simpl.
    by destruct (String.eqb _ "product_type").
Qed.

Lemma step_shop (st : State) (ev : Event) : shop (step st ev) = shop st.
Proof.
  destruct ev as [|c|i| | |i o]; simpl.
  - done.
  - by destruct c.
  - unfold toggleChip. by destruct (chips st !! i).
  - unfold clickAll. by destruct (btnKeys st).
  - unfold clickNone. by destruct (btnKeys st).
  - destruct (pending st !! i); [|done].
    destruct o; [done|]. unfold loadSales_finish, loadSales_reply. simpl.
    by destruct (String.eqb _ "product_type").
Qed.

Lemma issuedBy_length (st : State) (ev : Event) :
  length (issuedBy st ev) = if isReload ev then 1 else 0.
Proof. destruct ev as [|c|i| | |i o]; try done. by destruct c. Qed.

Lemma issuedBy_shop (st : State) (ev : Event) :
  Forall (fun r => q_shop r = shop st) (issuedBy st ev).
Proof.
  destruct ev as [|c|i| | |i o]; simpl; repeat constructor.
  destruct c; repeat constructor.
Qed.

Lemma run_requests (st : State) (evs : list Event) :
  length (requests (run st evs))
  = length (requests st) + length (List.filter isReload evs)
  /\ shop (run st evs) = shop st
  /\ (Forall (fun r => q_shop r = shop st) (requests st) ->
      Forall (fun r => q_shop r = shop st) (requests (run st evs))).
Proof.
  revert st. induction evs as [|ev evs IH]; intros st; simpl.
  - split; [lia|done].
  - destruct (IH (step st ev)) as (Hlen & Hshop & Hall).
    rewrite step_shop in Hshop, Hall.
    split; [|split; [done|]].
    + rewrite Hlen, step_requests, length_app, issuedBy_length.
      destruct (isReload ev); simpl; lia.
    + intros H. apply Hall. rewrite step_requests. apply Forall_app.
      split; [done|apply issuedBy_shop].
Qed.

(** X7: requests are sent by [loadSales] only, one per invocation and none
    again after a failure.  Each event adds to the requests sent exactly
    those of its listener: one for a click on Load or an edit of a date, the
    grouping or the metric, carrying the edited value, and none for an edit
    of the chart type or the show-orders box, a chip, All, None, or the
    settling of a reply.  Counted from the start of the page, the requests
    are as many as those events, plus the initial one when a shop is given,
    and every one of them carries the page's shop. *)
Theorem X7_requests_accounting (p : Page) (evs : list Event) :
  length (requests (run (boot p) evs))
  = (if String.eqb (page_shop p) "" then 0 else 1) + length (List.filter isReload evs)
  /\ Forall (fun r => q_shop r = page_shop p) (requests (run (boot p) evs))
  /\ (forall (st : State) (ev : Event),
        requests (step st ev) = requests st ++ issuedBy st ev).
Proof.
  destruct (run_requests (boot p) evs) as (Hlen & _ & Hall).
  split; [|split; [|apply step_requests]].
  - rewrite Hlen. unfold boot. by destruct (String.eqb (page_shop p) "").
  - assert (shop (boot p) = page_shop p) as Hs
      by (unfold boot; by destruct (String.eqb (page_shop p) "")).
    rewrite Hs in Hall. apply Hall.
    unfold boot. destruct (String.eqb (page_shop p) ""); simpl; repeat constructor.
Qed.

(** ** Events that only redraw *)

(** X8: an edit of the chart type or of the show-orders box, a click on a
    chip, and a click on All or None never touch the rows, the series keys,
    the currency, the status, the requests sent or outstanding, the other
    controls, the visibility of the filter card or the keys of the chips. *)
Theorem X8_render_only_events_keep_data (st : State) (ev : Event) :
  isRenderOnly ev = true -> dataState (step st ev) = dataState st.
Proof.
  intros Hev. destruct ev as [|c|i| | |i o]; try done; simpl.
  - by destruct c.
  - unfold toggleChip. destruct (chips st !! i) as [c|] eqn:Hi; [|done].
    unfold dataState. simpl. by rewrite (chip_keys_flip i c).
  - unfold clickAll. destruct (btnKeys st) eqn:Hb; [|done].
    unfold dataState. simpl. by rewrite chip_keys_setChecked, Hb.
  - unfold clickNone. destruct (btnKeys st) eqn:Hb; [|done].
    unfold dataState. simpl. by rewrite chip_keys_setChecked, Hb.
Qed.

Lemma X8_render_only_events_keep_data_witness :
  dataState (step stateABC (ToggleChip 1)) = dataState stateABC.
Proof. apply (X8_render_only_events_keep_data stateABC (ToggleChip 1)). reflexivity. Defined.

(** ** What holds in every state of the page *)

Section Coherence.

Lemma render_coherent (st : State) :
  coherentData st -> coherentChips st -> coherentStatus st -> coherent (render st).
Proof.
  intros Hd Hc Hs. split; [done|]. split; [done|]. split; [|done].
  split; [done|]. simpl. intros Hb.
  destruct Hc as (_ & _ & Hbtn). rewrite Hb in Hbtn.
  right. unfold traceNames. rewrite render_plot. simpl.
  rewrite renderPlot_productTraces, Hbtn. simpl. f_equal.
  generalize (seriesKeys st) as l. induction l as [|k l IH]; [done|].
  rewrite filter_cons_False; [exact IH|]. apply not_elem_of_empty.
Qed.

Lemma flip_coherentChips (i : nat) (c : Chip) (b : bool) (st : State) :
  chips st !! i = Some c -> coherentChips st ->
  coherentChips (set_chips (<[ i := setChecked b c ]> (chips st)) st).
Proof.
  intros Hi (Hidx & Hsort & Hbtn). unfold coherentChips. simpl.
  rewrite (chip_keys_flip i c) by done. split; [|split; [done|]].
  - intros j c' Hj. destruct (decide (i = j)) as [<-|Hne].
    + rewrite list_lookup_insert_eq in Hj by (by eapply lookup_lt_Some).
      injection Hj as <-. simpl. by apply Hidx.
    + rewrite list_lookup_insert_ne in Hj by done. by apply Hidx.
  - destruct (btnKeys st); [done|]. by rewrite Hbtn in Hi.
Qed.

Lemma setChecked_coherentChips (b : bool) (st : State) :
  coherentChips st -> coherentChips (set_chips (map (setChecked b) (chips st)) st).
Proof.
  intros (Hidx & Hsort & Hbtn). unfold coherentChips. simpl.
  rewrite chip_keys_setChecked. split; [|split; [done|]].
  - intros j c' Hj. change (map ?f ?l) with (f <$> l) in Hj.
    rewrite list_lookup_fmap in Hj.
    destruct (chips st !! j) as [c|] eqn:Hc; [|done].
    injection Hj as <-. simpl. by apply Hidx.
  - destruct (btnKeys st); [done|]. by rewrite Hbtn.
Qed.

Lemma buildTypeFilters_coherentChips (keys : list string) (st : State) :
  StronglySorted str_lt keys -> coherentChips (buildTypeFilters keys st).
Proof.
  intros Hsort. unfold coherentChips. simpl. split; [|split].
  - intros i c Hi. rewrite list_lookup_imap in Hi.
    destruct (keys !! i); [|done]. by injection Hi as <-.
  - by rewrite chip_keys_imap.
  - by rewrite chip_keys_imap.
Qed.

Lemma toggleChip_coherent (i : nat) (st : State) :
  coherent st -> coherent (toggleChip i st).
Proof.
  intros (Hd & Hc & Hv & Hs). unfold toggleChip.
  destruct (chips st !! i) as [c|] eqn:Hi; [|done].
  apply render_coherent; [done| |done]. by apply flip_coherentChips.
Qed.

Lemma clickAll_coherent (st : State) : coherent st -> coherent (clickAll st).
Proof.
  intros (Hd & Hc & Hv & Hs). unfold clickAll. destruct (btnKeys st) eqn:Hb; [|done].
  apply render_coherent; [done| |done].
  apply (setChecked_coherentChips true) in Hc. exact Hc.
Qed.

Lemma clickNone_coherent (st : State) : coherent st -> coherent (clickNone st).
Proof.
  intros (Hd & Hc & Hv & Hs). unfold clickNone. destruct (btnKeys st) eqn:Hb; [|done].
  apply render_coherent; [done| |done].
  apply (setChecked_coherentChips false) in Hc. exact Hc.
Qed.

Lemma loadSales_start_coherent (st : State) :
  coherent st -> coherent (loadSales_start st).
Proof. by intros (Hd & Hc & Hv & Hs). Qed.

Lemma loadSales_finish_coherent (gb : string) (o : Outcome) (st : State) :
  coherent st -> coherent (loadSales_finish gb o st).
Proof.
  intros (Hd & Hc & Hv & Hs). destruct o as [e|res]; [done|].
  unfold loadSales_finish. apply render_coherent.
  - unfold coherentData, loadSales_reply. simpl.
    by destruct (String.eqb gb "product_type").
  - unfold loadSales_reply. simpl. destruct (String.eqb gb "product_type").
    + apply (buildTypeFilters_coherentChips _ _ (deriveSeriesKeys_sorted _)).
    + exact Hc.
  - unfold coherentStatus, loadSales_reply. simpl.
    by destruct (String.eqb gb "product_type").
Qed.

Lemma step_coherent (st : State) (ev : Event) :
  coherent st -> coherent (step st ev).
Proof.
  intros Hinv. destruct ev as [|c|i| | |i o]; simpl.
  - by apply loadSales_start_coherent.
  - destruct Hinv as (Hd & Hc & Hv & Hs).
    destruct c; first [by apply loadSales_start_coherent
                      | by apply render_coherent].
  - by apply toggleChip_coherent.
  - by apply clickAll_coherent.
  - by apply clickNone_coherent.
  - destruct (pending st !! i); [|done]. by apply loadSales_finish_coherent.
Qed.

Lemma boot_coherent (p : Page) : coherent (boot p).
Proof.
  assert (coherentChips (init p)) as Hc by (split; [done|split; [constructor|done]]).
  assert (coherentView (init p)) as Hv by (split; [done|by left]).
  unfold boot. by destruct (String.eqb (page_shop p) "").
Qed.

Lemma run_coherent (st : State) (evs : list Event) :
  coherent st -> coherent (run st evs).
Proof.
  revert st. induction evs as [|ev evs IH]; intros st Hinv; [done|].
  simpl. apply IH. by apply step_coherent.
Qed.

End Coherence.

(** X9: as long as the [rows] member of every successful reply is missing
    or an array of objects (the replies [Replied] stands for), whatever the
    page and the events, the stored series keys are the keys derived from
    the stored rows: strictly ascending in code-unit order, without the
    excluded names, and with exactly the other field names of the rows. *)
Theorem X9_stored_keys_are_those_of_stored_rows (p : Page) (evs : list Event) :
  let st := run (boot p) evs in
  seriesKeys st = deriveSeriesKeys (rows st)
  /\ StronglySorted str_lt (seriesKeys st)
  /\ (forall k : string,
        k ∈ seriesKeys st <->
        (exists r, r ∈ rows st /\ is_Some (r !! k))
        /\ k <> "date" /\ k ∉ reservedNames).
Proof.
  intros st. destruct (run_coherent (boot p) evs (boot_coherent p)) as (Hd & _).
  fold st in Hd. unfold coherentData in Hd. rewrite Hd.
  split; [done|]. split; [apply deriveSeriesKeys_sorted|].
  apply elem_of_deriveSeriesKeys.
Qed.

(** X10: whatever the page and the events, the stored selection is exactly
    the set of keys of the checked chips, so an assignment to it that no
    chip backs does not outlive the next [render]; and until a load by
    product type has succeeded the page has no chip, the selection is empty
    and no chart drawn has a product trace, whatever the replies held. *)
Theorem X10_selection_is_the_checked_chips (p : Page) (evs : list Event) :
  let st := run (boot p) evs in
  selected st = list_to_set (checkedKeys (chips st))
  /\ (btnKeys st = None ->
      chips st = [] /\ selected st = ∅
      /\ (traceNames st = None \/ traceNames st = Some [])).
Proof.
  intros st.
  destruct (run_coherent (boot p) evs (boot_coherent p))
    as (_ & (_ & _ & Hbtn) & (Hsel & Hplot) & _).
  fold st in Hbtn, Hsel, Hplot. split; [done|].
  intros Hb. rewrite Hb in Hbtn. split; [done|]. split; [|by apply Hplot].
  by rewrite Hsel, Hbtn.
Qed.

Lemma X10_selection_is_the_checked_chips_witness :
  chips stateByDay = [] /\ selected stateByDay = ∅
  /\ (traceNames stateByDay = None \/ traceNames stateByDay = Some []).
Proof.
  pose proof (X10_selection_is_the_checked_chips pageByDay
                [Settle 0 (replyOf [rowDateA])]) as [_ H].
  apply H. reflexivity.
Defined.

(** X11: whatever the page and the events, the chips are numbered by their
    position, their keys are strictly ascending in code-unit order (so no
    two chips share a key), and the keys the All/None handlers were given are the keys of the
    chips on the page. *)
Theorem X11_chips_well_formed (p : Page) (evs : list Event) :
  let st := run (boot p) evs in
  (forall i c, chips st !! i = Some c -> chip_index c = i)
  /\ StronglySorted str_lt (map chip_key (chips st))
  /\ NoDup (map chip_key (chips st))
  /\ (forall ks, btnKeys st = Some ks -> ks = map chip_key (chips st)).
Proof.
  intros st.
  destruct (run_coherent (boot p) evs (boot_coherent p))
    as (_ & (Hidx & Hsort & Hbtn) & _).
  fold st in Hidx, Hsort, Hbtn.
  split; [done|]. split; [done|]. split.
  - clear -Hsort. induction Hsort as [|k l Hs IH Hall]; [constructor|].
    apply NoDup_cons. split; [|done]. intros Hin.
    rewrite Forall_forall in Hall. by apply (str_lt_irrefl k), Hall.
  - intros ks Hks. by rewrite Hks in Hbtn.
Qed.

Lemma X11_chips_well_formed_witness :
  exists c, chips stateOnlyA !! 2 = Some c /\ chip_index c = 2.
Proof.
  pose proof (X11_chips_well_formed pageByType
                [Settle 0 (replyOf [rowABC]); ToggleChip 1; ToggleChip 2])
    as (Hidx & _).
  eexists. split; [reflexivity|]. apply Hidx. reflexivity.
Defined.

(** X12: whatever the page and the events, the status is shown in the
    error colour exactly when its text is the missing-shop notice or a
    load-failure message. *)
Theorem X12_error_colour (p : Page) (evs : list Event) :
  let st := run (boot p) evs in
  snd (status st) = isErrorMsg (fst (status st)).
Proof.
  intros st.
  by destruct (run_coherent (boot p) evs (boot_coherent p)) as (_ & _ & _ & Hs).
Qed.

(** ** Toggling a chip *)

Lemma checkedKeys_app (l1 l2 : list Chip) :
  checkedKeys (l1 ++ l2) = checkedKeys l1 ++ checkedKeys l2.
Proof. unfold checkedKeys. by rewrite List.filter_app, map_app. Qed.

Lemma checkedKeys_cons (c : Chip) (l : list Chip) :
  checkedKeys (c :: l)
  = (if chip_checked c then [chip_key c] else []) ++ checkedKeys l.
Proof. unfold checkedKeys. simpl. by destruct (chip_checked c). Qed.

Lemma setChecked_twice (b b' : bool) (c : Chip) :
  setChecked b (setChecked b' c) = setChecked b c.
Proof. done. Qed.

Lemma setChecked_same (c : Chip) : setChecked (chip_checked c) c = c.
Proof. by destruct c. Qed.

(** The checked keys after the [i]-th chip, of a key no other chip has, is
    given the state [b]. *)
Lemma checkedKeys_flip (i : nat) (c : Chip) (b : bool) (cs : list Chip) :
  cs !! i = Some c -> NoDup (map chip_key cs) ->
  list_to_set (checkedKeys (<[ i := setChecked b c ]> cs))
  =@{gset string}
  if b then list_to_set (checkedKeys cs) ∪ {[ chip_key c ]}
  else list_to_set (checkedKeys cs) ∖ {[ chip_key c ]}.
Proof.
  intros Hi Hnd.
  rewrite insert_take_drop by (by eapply lookup_lt_Some).
  pose proof (take_drop_middle cs i c Hi) as Heq.
  set (l1 := take i cs) in *. set (l2 := drop (S i) cs) in *.
  clearbody l1 l2. subst cs. clear Hi.
  rewrite map_app in Hnd. simpl in Hnd.
  apply NoDup_app in Hnd as (_ & Hl1 & Hnd).
  apply NoDup_cons in Hnd as [Hl2 _].
  assert (chip_key c ∉ checkedKeys l1) as H1.
  { intros Hin. apply checkedKeys_subseteq in Hin.
    apply (Hl1 _ Hin). left. }
  assert (chip_key c ∉ checkedKeys l2) as H2.
  { intros Hin. by apply checkedKeys_subseteq in Hin. }
  rewrite !checkedKeys_app, !checkedKeys_cons.
  simpl. apply set_eq. intros k.
  destruct b, (chip_checked c); simpl;
    rewrite ?elem_of_union, ?elem_of_difference, !elem_of_list_to_set,
      ?elem_of_app, ?elem_of_cons, ?elem_of_nil, ?elem_of_singleton;
    rewrite ?elem_of_app, ?elem_of_cons, ?elem_of_nil;
    intuition (subst; tauto).
Qed.

(** X13: in every state of the page, a click on a chip changes the
    selection by exactly that chip's key: the key leaves the selection when
    the chip was checked and joins it when the chip was not, and every other
    key stays as it was. *)
Theorem X13_toggle_flips_one_key (p : Page) (evs : list Event) (i : nat) (c : Chip) :
  let st := run (boot p) evs in
  chips st !! i = Some c ->
  selected (toggleChip i st)
  = (if chip_checked c then selected st ∖ {[ chip_key c ]}
     else selected st ∪ {[ chip_key c ]}).
Proof.
  intros st Hi.
  destruct (run_coherent (boot p) evs (boot_coherent p))
    as (_ & (_ & Hsort & _) & (Hsel & _) & _).
  fold st in Hsort, Hsel.
  assert (NoDup (map chip_key (chips st))) as Hnd.
  { clear -Hsort. induction Hsort as [|k l Hs IH Hall]; [constructor|].
    apply NoDup_cons. split; [|done]. intros Hin.
    rewrite Forall_forall in Hall. by apply (str_lt_irrefl k), Hall. }
  unfold toggleChip. rewrite Hi.
  rewrite render_selected. simpl.
  rewrite (checkedKeys_flip i c _ _ Hi Hnd), Hsel.
  by destruct (chip_checked c).
Qed.

Lemma stateABC_chip_B :
  chips (run (boot pageByType) [Settle 0 (replyOf [rowABC])]) !! 1
  = Some (mkChip 1 "B" true).
Proof. reflexivity. Qed.

Lemma X13_toggle_flips_one_key_witness :
  selected (toggleChip 1 (run (boot pageByType) [Settle 0 (replyOf [rowABC])]))
  = selected (run (boot pageByType) [Settle 0 (replyOf [rowABC])]) ∖ {[ "B" ]}.
Proof.
  pose proof (X13_toggle_flips_one_key pageByType [Settle 0 (replyOf [rowABC])] 1
                (mkChip 1 "B" true) stateABC_chip_B) as H.
  cbv zeta in H. cbn [chip_checked chip_key] in H.
  exact H.
Defined.

(** X14: clicking the same chip twice leaves the page as a plain [render]
    would: the chips are as before and the chart is the one of the original
    ticks. *)
Theorem X14_toggle_twice (st : State) (i : nat) (c : Chip) :
  chips st !! i = Some c ->
  toggleChip i (toggleChip i st) = render st.
Proof.
  intros Hi.
  assert (i < length (chips st)) as Hlt by (by eapply lookup_lt_Some).
  unfold toggleChip at 2. rewrite Hi.
  unfold toggleChip. simpl. rewrite list_lookup_insert_eq by done. simpl.
  rewrite list_insert_insert_eq, negb_involutive, setChecked_twice, setChecked_same.
  rewrite (list_insert_id _ _ _ Hi).
  by destruct st.
Qed.


Lemma X14_toggle_twice_witness :
  toggleChip 1 (toggleChip 1 (run (boot pageByType) [Settle 0 (replyOf [rowABC])]))
  = render (run (boot pageByType) [Settle 0 (replyOf [rowABC])]).
Proof.
  exact (X14_toggle_twice _ 1 (mkChip 1 "B" true) stateABC_chip_B).
Defined.

(** ** All and None *)

Lemma checkedKeys_all (cs : list Chip) :
  checkedKeys (map (setChecked true) cs) = map chip_key cs.
Proof.
  induction cs as [|c cs IH]; [done|].
  change (map ?f (c :: cs)) with (f c :: map f cs).
  by rewrite checkedKeys_cons, IH.
Qed.

Lemma checkedKeys_none (cs : list Chip) :
  checkedKeys (map (setChecked false) cs) = [].
Proof.
  induction cs as [|c cs IH]; [done|].
  change (map ?f (c :: cs)) with (f c :: map f cs).
  by rewrite checkedKeys_cons, IH.
Qed.

Lemma setChecked_map_twice (b b' : bool) (cs : list Chip) :
  map (setChecked b) (map (setChecked b') cs) = map (setChecked b) cs.
Proof. rewrite map_map. by apply map_ext. Qed.

Lemma traceNames_render (st : State) :
  traceNames (render st)
  = Some (filter (fun k => k ∈ checkedKeys (chips st)) (seriesKeys st)).
Proof.
  unfold traceNames. rewrite render_plot. simpl.
  rewrite renderPlot_productTraces. f_equal.
  rewrite map_map. erewrite map_ext; [|intros k; apply keyTrace_name].
  rewrite map_id. apply list_filter_iff. intros k. apply elem_of_list_to_set.
Qed.

Lemma filter_in_nil (l : list string) :
  filter (fun k => k ∈ ([] : list string)) l = [].
Proof.
  induction l as [|k l IH]; [done|].
  rewrite filter_cons_False; [exact IH|]. apply not_elem_of_nil.
Qed.

Lemma traces_length_render (st : State) :
  (length <$> (p_traces <$> plot (render st)))
  = Some (length (filter (fun k => k ∈ checkedKeys (chips st)) (seriesKeys st))
          + (if showOrdersEl st then 1 else 0)).
Proof.
  rewrite render_plot. cbn [fmap option_fmap option_map].
  rewrite renderPlot_traces, length_app, length_map.
  f_equal. f_equal.
  - f_equal. apply list_filter_iff. intros k. apply elem_of_list_to_set.
  - by destruct (showOrdersEl st).
Qed.



(** ** Series keys depend on field names only *)

(** X16: the derived series keys depend only on which field names occur in
    the rows: two row lists in which the same names occur somewhere give the
    same keys.  So the keys do not depend on the order of the rows, on how
    often a row or a name occurs, or on any value, and the keys of two
    batches of rows taken together are the keys of each taken together. *)
Theorem X16_keys_depend_on_names_only (rows1 rows2 : list Row) :
  (forall k : string,
     (exists r, r ∈ rows1 /\ is_Some (r !! k))
     <-> (exists r, r ∈ rows2 /\ is_Some (r !! k))) ->
  deriveSeriesKeys rows1 = deriveSeriesKeys rows2.
Proof.
  intros Hsame. apply sorted_perm_eq; try apply sortStrings_sorted.
  apply NoDup_Permutation; try apply deriveSeriesKeys_NoDup.
  intros k. rewrite !elem_of_deriveSeriesKeys. by rewrite Hsame.
Qed.

Lemma X16_keys_depend_on_names_only_witness :
  deriveSeriesKeys [rowAD; rowABC] = deriveSeriesKeys [rowABC; rowAD; rowAD].
Proof.
  apply X16_keys_depend_on_names_only. intros k. split.
  - intros (r & Hr & Hk). exists r. split; [|exact Hk].
    apply elem_of_cons in Hr as [->|Hr]; [right; left|].
    apply elem_of_cons in Hr as [->|Hr]; [left|]. by apply elem_of_nil in Hr.
  - intros (r & Hr & Hk). exists r. split; [|exact Hk].
    apply elem_of_cons in Hr as [->|Hr]; [right; left|].
    apply elem_of_cons in Hr as [->|Hr]; [left|].
    apply elem_of_cons in Hr as [->|Hr]; [left|]. by apply elem_of_nil in Hr.
Defined.

(** ** The address of a request *)

Lemma unescape_escape c : unescapeByte (escapeByte c) = Some c.
Proof.
  destruct c as [[] [] [] [] [] [] [] []]; reflexivity.
Qed.

Lemma escape_shape c : exists h l, escapeByte c = String percent (String h (String l "")) /\ isUnescaped h = true /\ isUnescaped l = true.
Proof.
  destruct c as [[] [] [] [] [] [] [] []]; eexists _, _; (split; [reflexivity|split; reflexivity]).
Qed.

Lemma occursIn_app c a b : occursIn c (a +:+ b) = occursIn c a || occursIn c b.
Proof.
  induction a as [|x a IH]; simpl; [done|]. by destruct (Ascii.eqb c x).
Qed.

Lemma encode_chars (c : Ascii.ascii) (s : string) :
  occursIn c (encodeURIComponent s) = true -> isUnescaped c = true \/ c = percent.
Proof.
  induction s as [|x s IH]; simpl; [done|].
  rewrite occursIn_app. intros [H|H]%orb_true_iff; [|by apply IH].
  destruct (isUnescaped x) eqn:Hx.
  - simpl in H. destruct (Ascii.eqb c x) eqn:Hc; [|done].
    apply Ascii.eqb_eq in Hc as ->. by left.
  - destruct (escape_shape x) as (h & l & Hesc & Hh & Hl).
    rewrite Hesc in H. simpl in H.
    destruct (Ascii.eqb c percent) eqn:H0; [apply Ascii.eqb_eq in H0; by right|].
    destruct (Ascii.eqb c h) eqn:H1; [apply Ascii.eqb_eq in H1 as ->; by left|].
    destruct (Ascii.eqb c l) eqn:H2; [apply Ascii.eqb_eq in H2 as ->; by left|done].
Qed.

Lemma append_inv_head (p a b : string) : p +:+ a = p +:+ b -> a = b.
Proof. induction p as [|x p IH]; simpl; [done|]. intros [=]. by apply IH. Qed.

Lemma encode_inj (s1 s2 : string) :
  encodeURIComponent s1 = encodeURIComponent s2 -> s1 = s2.
Proof.
  revert s2. induction s1 as [|x s1 IH]; intros [|y s2]; simpl.
  - done.
  - destruct (isUnescaped y); [done|].
    destruct (escape_shape y) as (h & l & Hesc & _). by rewrite Hesc.
  - destruct (isUnescaped x); [done|].
    destruct (escape_shape x) as (h & l & Hesc & _). by rewrite Hesc.
  - destruct (isUnescaped x) eqn:Hx, (isUnescaped y) eqn:Hy.
    + simpl. intros [= -> H]. f_equal. by apply IH.
    + destruct (escape_shape y) as (h & l & Hesc & _). rewrite Hesc.
      simpl. intros [= -> _]. done.
    + destruct (escape_shape x) as (h & l & Hesc & _). rewrite Hesc.
      simpl. intros [= <- _]. done.
    + pose proof (unescape_escape x) as Ux. pose proof (unescape_escape y) as Uy.
      destruct (escape_shape x) as (h & l & Ex & _).
      destruct (escape_shape y) as (h' & l' & Ey & _).
      rewrite Ex, Ey in *. simpl. intros [= -> -> H].
      rewrite Ux in Uy. injection Uy as ->. f_equal. by apply IH.
Qed.

Lemma occursIn_cons_false (c x : Ascii.ascii) (s : string) :
  occursIn c (String x s) = false -> c <> x /\ occursIn c s = false.
Proof.
  cbn [occursIn]. destruct (Ascii.eqb c x) eqn:E; [done|].
  apply Ascii.eqb_neq in E. done.
Qed.

Lemma split_at_ampersand (a a' x x' : string) :
  occursIn ampersand a = false -> occursIn ampersand a' = false ->
  a +:+ String ampersand x = a' +:+ String ampersand x' -> a = a' /\ x = x'.
Proof.
  revert a'. induction a as [|c a IH]; intros [|c' a'] Ha Ha' Heq;
    cbn [String.append] in Heq.
  - by injection Heq as ->.
  - apply occursIn_cons_false in Ha' as [Hne _]. injection Heq as Hc _. done.
  - apply occursIn_cons_false in Ha as [Hne _]. injection Heq as Hc _. done.
  - apply occursIn_cons_false in Ha as [_ Ha].
    apply occursIn_cons_false in Ha' as [_ Ha'].
    injection Heq as -> Heq. destruct (IH a' Ha Ha' Heq) as [-> ->]. done.
Qed.

Lemma encode_no_ampersand (s : string) : occursIn ampersand (encodeURIComponent s) = false.
Proof.
  destruct (occursIn ampersand (encodeURIComponent s)) eqn:H; [|done].
  by apply encode_chars in H as [H|H].
Qed.

Lemma salesUrl_inj (r1 r2 : Request) : salesUrl r1 = salesUrl r2 -> r1 = r2.
Proof.
  unfold salesUrl. intros H.
  apply append_inv_head in H.
  apply (split_at_ampersand _ _ ("start_date=" +:+ _) ("start_date=" +:+ _)) in H
    as [H1 H]; try apply encode_no_ampersand.
  apply append_inv_head in H.
  apply (split_at_ampersand _ _ ("end_date=" +:+ _) ("end_date=" +:+ _)) in H
    as [H2 H]; try apply encode_no_ampersand.
  apply append_inv_head in H.
  apply (split_at_ampersand _ _ ("group_by=" +:+ _) ("group_by=" +:+ _)) in H
    as [H3 H]; try apply encode_no_ampersand.
  apply append_inv_head in H.
  apply (split_at_ampersand _ _ ("metric=" +:+ _) ("metric=" +:+ _)) in H
    as [H4 H]; try apply encode_no_ampersand.
  apply append_inv_head in H.
  apply encode_inj in H1, H2, H3, H4, H.
  destruct r1, r2. simpl in *. by subst.
Qed.

Example salesUrl_escapes :
  salesUrl (mkRequest "a&metric=units#" "2024-01-01" "2024-01-14" "product type" "sales")
  = "/api/sales?shop=a%26metric%3Dunits%23&start_date=2024-01-01&end_date=2024-01-14&group_by=product%20type&metric=sales".
Proof. vm_compute. reflexivity. Qed.

(** X17: the address [loadSales] fetches determines the five parameters
    it was built from: two requests with the same address have the same
    shop, dates, grouping and metric.  An encoded value consists of
    unescaped characters and [%] only, so it contains no [&], and distinct
    values have distinct encodings: no value of a control or of the shop
    parameter can add or change another parameter of the query. *)
Theorem X17_address_determines_the_query :
  (forall r1 r2 : Request, salesUrl r1 = salesUrl r2 -> r1 = r2)
  /\ (forall (s : string) (c : Ascii.ascii),
        occursIn c (encodeURIComponent s) = true ->
        isUnescaped c = true \/ c = percent)
  /\ (forall s : string, occursIn ampersand (encodeURIComponent s) = false)
  /\ (forall s1 s2 : string,
        encodeURIComponent s1 = encodeURIComponent s2 -> s1 = s2).
Proof.
  split; [apply salesUrl_inj|].
  split; [intros s c; apply encode_chars|].
  split; [apply encode_no_ampersand|apply encode_inj].
Qed.

Lemma X17_address_determines_the_query_witness :
  occursIn ampersand (encodeURIComponent "a&metric=units") = false
  /\ requestOf (boot pageByType) = requestOf (init pageByType).
Proof.
  pose proof X17_address_determines_the_query as (Hr & _ & Ha & _).
  split; [apply Ha|].
  apply Hr. reflexivity.
Defined.
